(** * prow/pjutil/filter.go: presubmit filters

    A shallow embedding of the filter algebra of [prow/pjutil/filter.go]:
    the four command patterns, the filter constructors, [AggregateFilter],
    the evaluator [FilterPresubmits], the chain builder [PresubmitFilter]
    and the summary builder [AvailablePresubmits], followed by the
    properties of the specification that hold of them (and the concrete
    runs that refute the ones that do not). *)

From Stdlib Require Import Ascii String.
From stdpp Require Import base list gmap strings.

Local Open Scope string_scope.
Local Open Scope list_scope.

#[local] Set Warnings "-clear-no-such-hyp".

(** ** Errors

    Go's [error] values, as far as this file builds and inspects them:
    an opaque error carrying its message, and the value built by
    [fmt.Errorf] with a [%w] verb, which keeps the wrapped error. *)

Inductive error : Type :=
| errorString (msg : string)
| wrapError (msg : string) (err : error).

Definition Error (e : error) : string :=
  match e with
  | errorString msg => msg
  | wrapError msg _ => msg
  end.

Definition Unwrap (e : error) : option error :=
  match e with
  | errorString _ => None
  | wrapError _ err => Some err
  end.

(** ** Regular expressions

    The fragment of RE2 syntax the four patterns use.  All four are
    compiled under the flag [(?m)], so [Bol] and [Eol] are the multi-line
    anchors: [^] holds at the start of the text and after a line feed, [$]
    at the end of the text and before a line feed.  [Dot] is any byte but
    the line feed and [Space] is the class [\s], that is [[\t\n\f\r ]]. *)

Module regexp.

Inductive Regexp : Type :=
| Chr (c : ascii)
| Space
| Dot
| Bol
| Eol
| Cat (r1 r2 : Regexp)
| Alt (r1 r2 : Regexp)
| Star (r : Regexp)
| Quest (r : Regexp).

Definition lf : ascii := "010"%char.

Definition isSpace (c : ascii) : bool :=
  Ascii.eqb c "009" || Ascii.eqb c lf || Ascii.eqb c "012"
  || Ascii.eqb c "013" || Ascii.eqb c " ".

(** The iterations of a starred expression, [step] being one of them:
    stop here, or match once more and go on from there.  An iteration that
    consumes nothing is cut, which loses no match, and bounds the number of
    iterations by the length of the text. *)
Fixpoint iterate (step : option ascii -> string -> (option ascii -> string -> bool) -> bool)
    (k : option ascii -> string -> bool) (fuel : nat)
    (prev : option ascii) (s : string) : bool :=
  k prev s ||
  match fuel with
  | O => false
  | S fuel' =>
      step prev s (fun prev' s' =>
        if Nat.ltb (String.length s') (String.length s)
        then iterate step k fuel' prev' s' else false)
  end.

(** [run r prev s k]: some prefix of [s] matches [r] and the continuation
    [k] accepts what is left, [prev] being the byte before [s] (none at
    the start of the text). *)
Fixpoint run (r : Regexp) (prev : option ascii) (s : string)
    (k : option ascii -> string -> bool) {struct r} : bool :=
  match r with
  | Chr c =>
      match s with
      | String a s' => if Ascii.eqb a c then k (Some a) s' else false
      | EmptyString => false
      end
  | Space =>
      match s with
      | String a s' => if isSpace a then k (Some a) s' else false
      | EmptyString => false
      end
  | Dot =>
      match s with
      | String a s' => if Ascii.eqb a lf then false else k (Some a) s'
      | EmptyString => false
      end
  | Bol =>
      match prev with
      | None => k prev s
      | Some a => if Ascii.eqb a lf then k prev s else false
      end
  | Eol =>
      match s with
      | EmptyString => k prev s
      | String a _ => if Ascii.eqb a lf then k prev s else false
      end
  | Cat r1 r2 => run r1 prev s (fun prev' s' => run r2 prev' s' k)
  | Alt r1 r2 => run r1 prev s k || run r2 prev s k
  | Quest r1 => run r1 prev s k || k prev s
  | Star r1 => iterate (run r1) k (String.length s) prev s
  end.

(** A literal string, byte after byte; [tl] is what follows it. *)
Fixpoint lit (s : string) (tl : Regexp) : Regexp :=
  match s with
  | EmptyString => tl
  | String c s' => Cat (Chr c) (lit s' tl)
  end.

Fixpoint search (re : Regexp) (prev : option ascii) (s : string) : bool :=
  run re prev s (fun _ _ => true) ||
  match s with
  | EmptyString => false
  | String a s' => search re (Some a) s'
  end.

(** [MatchString] reports whether the text contains any match. *)
Definition MatchString (re : Regexp) (s : string) : bool :=
  search re None s.

(** *** What a pattern matches

    The meaning of the patterns, to check [run] against.  A position in
    the text is the byte before it and the text from it on. *)

(** [ahead prev s prev' s']: the second position is the first one or a
    later one in the same text. *)
Inductive ahead : option ascii -> string -> option ascii -> string -> Prop :=
| ahead_here prev s : ahead prev s prev s
| ahead_next prev a s prev' s' :
    ahead (Some a) s prev' s' -> ahead prev (String a s) prev' s'.

(** [Matches r prev s prev' s']: [r] matches the text between the two
    positions. *)
Inductive Matches : Regexp -> option ascii -> string -> option ascii -> string -> Prop :=
| MChr c prev s : Matches (Chr c) prev (String c s) (Some c) s
| MSpace a prev s : isSpace a = true -> Matches Space prev (String a s) (Some a) s
| MDot a prev s : a <> lf -> Matches Dot prev (String a s) (Some a) s
| MBol_text s : Matches Bol None s None s
| MBol_line s : Matches Bol (Some lf) s (Some lf) s
| MEol_text prev : Matches Eol prev EmptyString prev EmptyString
| MEol_line prev s : Matches Eol prev (String lf s) prev (String lf s)
| MCat r1 r2 prev s prev1 s1 prev2 s2 :
    Matches r1 prev s prev1 s1 -> Matches r2 prev1 s1 prev2 s2 ->
    Matches (Cat r1 r2) prev s prev2 s2
| MAlt_l r1 r2 prev s prev' s' :
    Matches r1 prev s prev' s' -> Matches (Alt r1 r2) prev s prev' s'
| MAlt_r r1 r2 prev s prev' s' :
    Matches r2 prev s prev' s' -> Matches (Alt r1 r2) prev s prev' s'
| MQuest_one r prev s prev' s' :
    Matches r prev s prev' s' -> Matches (Quest r) prev s prev' s'
| MQuest_none r prev s : Matches (Quest r) prev s prev s
| MStar_nil r prev s : Matches (Star r) prev s prev s
| MStar_cons r prev s prev1 s1 prev2 s2 :
    Matches r prev s prev1 s1 -> Matches (Star r) prev1 s1 prev2 s2 ->
    Matches (Star r) prev s prev2 s2.

(** A matcher that accepts more when its continuation does. *)
Definition monotone
    (step : option ascii -> string -> (option ascii -> string -> bool) -> bool) : Prop :=
  forall prev s k k',
    (forall prev' s', k prev' s' = true -> k' prev' s' = true) ->
    step prev s k = true -> step prev s k' = true.

(** The byte before the position reached by reading [u]. *)
Fixpoint last_byte (u : string) (prev : option ascii) : option ascii :=
  match u with
  | EmptyString => prev
  | String a u' => last_byte u' (Some a)
  end.

Fixpoint blank (u : string) : bool :=
  match u with
  | EmptyString => true
  | String a u' => isSpace a && blank u'
  end.

(** Blanks that stay on the line. *)
Fixpoint blank_inline (u : string) : bool :=
  match u with
  | EmptyString => true
  | String a u' => isSpace a && negb (Ascii.eqb a lf) && blank_inline u'
  end.

(** The start and the end of a line. *)
Definition line_start (prev : option ascii) : Prop :=
  prev = None \/ prev = Some lf.

Definition line_end (s : string) : Prop :=
  s = EmptyString \/ exists s', s = String lf s'.

(** A command alone on its line: the shape of the three patterns
    [RetestRe], [RetestRequiredRe] and [OkToTestRe]. *)
Definition command (c : string) : Regexp :=
  Cat Bol (lit c (Cat (Star Space) Eol)).

(** [c] is alone on a line of the text: it is read from the start of a
    line, and after it and some blanks of the same line the line ends. *)
Definition alone_on_line (c text : string) : Prop :=
  exists prev u rest,
    ahead None text prev (c +:+ u +:+ rest) /\
    line_start prev /\ blank_inline u = true /\ line_end rest.

(** A line of the text starts with [c], then an optional comma, and then
    ends or goes on with a blank. *)
Definition heads_line (c text : string) : Prop :=
  exists prev comma rest,
    ahead None text prev (c +:+ comma +:+ rest) /\
    line_start prev /\ (comma = "" \/ comma = ",") /\
    (line_end rest \/ exists a t, rest = String a t /\ isSpace a = true).

(** A text of one line: no line feed in it. *)
Fixpoint single_line (s : string) : bool :=
  match s with
  | EmptyString => true
  | String a s' => negb (Ascii.eqb a lf) && single_line s'
  end.

End regexp.

Import regexp.

(** [(?m)^/test all,?G] where the group [G] is [$|\s.*]: the command, an
    optional comma, then the end of the line or a blank and anything up to
    the end of the line. *)
Definition TestAllRe : Regexp :=
  Cat Bol (lit "/test all" (Cat (Quest (Chr ",")) (Alt Eol (Cat Space (Star Dot))))).

(** The pattern "(?m)^/retest\s*$", the regex for [/retest]. *)
Definition RetestRe : Regexp :=
  Cat Bol (lit "/retest" (Cat (Star Space) Eol)).

(** The pattern "(?m)^/retest-required\s*$", for [/retest-required]. *)
Definition RetestRequiredRe : Regexp :=
  Cat Bol (lit "/retest-required" (Cat (Star Space) Eol)).

(** The pattern "(?m)^/ok-to-test\s*$". *)
Definition OkToTestRe : Regexp :=
  Cat Bol (lit "/ok-to-test" (Cat (Star Space) Eol)).

(** ** Presubmits

    [config.Presubmit] and its methods are declared in package [config];
    [filter.go] reads four fields and calls three methods, and nothing
    else.  They are the interface below.  [ShouldRun] is the eligibility
    rule: it gets the branch, the provider of the changed files and the
    [forced] and [defaults] components of the filter's answer, and returns
    Go's pair of a boolean and an error. *)

Definition ChangedFilesProvider : Type := unit -> list string * option error.

Class PresubmitConfig : Type := {
  Presubmit : Type;
  Name : Presubmit -> string;
  Context : Presubmit -> string;
  RerunCommand : Presubmit -> string;
  Optional : Presubmit -> bool;
  TriggerMatches : Presubmit -> string -> bool;
  NeedsExplicitTrigger : Presubmit -> bool;
  ShouldRun : Presubmit -> string -> ChangedFilesProvider -> bool -> bool ->
              bool * option error
}.

(** ** The logger and the context resolver

    What the code does besides computing: it writes entries to the logger
    it is given, and it calls [contextGetter].  [World] holds the entries
    written so far and the number of calls made to the resolver; the
    [logger] argument of the Go functions is this log.  The counters that
    are logged are Go [int]s that count presubmits of the input slice, so
    they do not wrap and are natural numbers here. *)

Inductive Level : Type := DebugLevel | InfoLevel.

Inductive FieldValue : Type :=
| Strings (l : list string)
| Int (n : nat).

Record Entry : Type := {
  level : Level;
  message : string;
  fields : gmap string FieldValue
}.

Record World : Type := {
  logged : list Entry;
  resolved : nat
}.

Definition emit (e : Entry) (w : World) : World :=
  {| logged := logged w ++ [e]; resolved := resolved w |}.

(** A Go function body: it runs on, or it has executed [return r]. *)
Definition Go (R A : Type) : Type := World -> (R + A) * World.

Definition pure {R A} (a : A) : Go R A := fun w => (inr a, w).

Definition return_ {R A} (r : R) : Go R A := fun w => (inl r, w).

Definition bind {R A B} (m : Go R A) (f : A -> Go R B) : Go R B :=
  fun w =>
    match m w with
    | (inl r, w') => (inl r, w')
    | (inr a, w') => f a w'
    end.

(** A call of a function that returns: [World -> R * World]. *)
Definition call {R A} (f : World -> A * World) : Go R A :=
  fun w => let '(a, w') := f w in (inr a, w').

(** The function whose body is [m]. *)
Definition func {R} (m : Go R R) : World -> R * World :=
  fun w =>
    match m w with
    | (inl r, w') => (r, w')
    | (inr r, w') => (r, w')
    end.

Definition info (msg : string) : Entry :=
  {| level := InfoLevel; message := msg; fields := ∅ |}.

Definition debug (fs : gmap string FieldValue) (msg : string) : Entry :=
  {| level := DebugLevel; message := msg; fields := fs |}.

Definition Info {R} (msg : string) : Go R unit :=
  fun w => (inr tt, emit (info msg) w).

Definition Debug {R} (fs : gmap string FieldValue) (msg : string) : Go R unit :=
  fun w => (inr tt, emit (debug fs msg) w).

#[export] Instance go_ret {R} : MRet (Go R) := fun A a => pure a.

#[export] Instance go_bind {R} : MBind (Go R) := fun A B f m => bind m f.

(** [sets.String] is a set of strings. *)
Definition Has (s : gset string) (x : string) : bool := bool_decide (x ∈ s).

Definition Insert (s : gset string) (x : string) : gset string := s ∪ {[ x ]}.

(** The resolver: the failed contexts and all the contexts, or an error.
    It is a function of the caller's, which may do anything to the world. *)
Definition contextGetter : Type :=
  World -> (gset string * gset string * option error) * World.

Section Filters.

Context {config : PresubmitConfig}.

(** ** Filters *)

Definition Filter : Type := Presubmit -> bool * bool * bool.

Definition CommandFilter (body : string) : Filter :=
  fun p => (TriggerMatches p body, TriggerMatches p body, true).

Definition TestAllFilter : Filter :=
  fun p => (negb (NeedsExplicitTrigger p), false, false).

Fixpoint AggregateFilter (filters : list Filter) : Filter :=
  fun presubmit =>
    match filters with
    | [] => (false, false, false)
    | filter :: rest =>
        let '(shouldRun, forced, defaults) := filter presubmit in
        if shouldRun then (shouldRun, forced, defaults)
        else AggregateFilter rest presubmit
    end.

Definition RetestFilter (failedContexts allContexts : gset string) : Filter :=
  fun p =>
    let failed := Has failedContexts (Context p) in
    (failed || (negb (NeedsExplicitTrigger p) && negb (Has allContexts (Context p))),
     false, failed).

Definition RetestRequiredFilter (failedContext allContexts : gset string) : Filter :=
  fun ps =>
    if Optional ps then (false, false, false)
    else RetestFilter failedContext allContexts ps.

(** ** The evaluator *)

(** [fmt.Errorf("%s: should run: %w", name, err)] *)
Definition Errorf_should_run (name : string) (err : error) : error :=
  wrapError (name +:+ ": should run: " +:+ Error err) err.

(** The local variables of [FilterPresubmits]. *)
Record Locals : Type := {
  toTrigger : list Presubmit;
  namesToTrigger : list string;
  noMatch : nat;
  shouldnotRun : nat
}.

Definition entered : Locals :=
  {| toTrigger := []; namesToTrigger := []; noMatch := 0; shouldnotRun := 0 |}.

(** The [for ... range presubmits] loop. *)
Fixpoint rangePresubmits (filter : Filter) (changes : ChangedFilesProvider)
    (branch : string) (presubmits : list Presubmit) (l : Locals)
    : Go (list Presubmit * option error) Locals :=
  match presubmits with
  | [] => pure l
  | presubmit :: rest =>
      let '(matches, forced, defaults) := filter presubmit in
      if negb matches then
        rangePresubmits filter changes branch rest
          {| toTrigger := toTrigger l; namesToTrigger := namesToTrigger l;
             noMatch := S (noMatch l); shouldnotRun := shouldnotRun l |}
      else
        let '(shouldRun, err) := ShouldRun presubmit branch changes forced defaults in
        match err with
        | Some err => return_ ([], Some (Errorf_should_run (Name presubmit) err))
        | None =>
            if negb shouldRun then
              rangePresubmits filter changes branch rest
                {| toTrigger := toTrigger l; namesToTrigger := namesToTrigger l;
                   noMatch := noMatch l; shouldnotRun := S (shouldnotRun l) |}
            else
              rangePresubmits filter changes branch rest
                {| toTrigger := toTrigger l ++ [presubmit];
                   namesToTrigger := namesToTrigger l ++ [Name presubmit];
                   noMatch := noMatch l; shouldnotRun := shouldnotRun l |}
        end
  end.

Definition FilterPresubmits (filter : Filter) (changes : ChangedFilesProvider)
    (branch : string) (presubmits : list Presubmit)
    : World -> (list Presubmit * option error) * World :=
  func (
    l ← rangePresubmits filter changes branch presubmits entered;
    Debug {[ "to-trigger" := Strings (namesToTrigger l);
             "total-count" := Int (length presubmits);
             "to-trigger-count" := Int (length (toTrigger l));
             "no-match-count" := Int (noMatch l);
             "should-not-run-count" := Int (shouldnotRun l) ]}
          "Filtered complete.";;
    return_ (toTrigger l, None)).

(** ** The chain builder *)

Definition PresubmitFilter (honorOkToTest : bool) (contextGetter : contextGetter)
    (body : string) : World -> (option Filter * option error) * World :=
  func (
    let filters := [CommandFilter body] in
    filters ←
      (if MatchString RetestRe body then
         Info "Using retest filter.";;
         '(failedContexts, allContexts, err) ← call contextGetter;
         match err with
         | Some err => return_ (None, Some err)
         | None => pure (filters ++ [RetestFilter failedContexts allContexts])
         end
       else pure filters);
    filters ←
      (if MatchString RetestRequiredRe body then
         Info "Using retest-required filter";;
         '(failedContexts, allContexts, err) ← call contextGetter;
         match err with
         | Some err => return_ (None, Some err)
         | None => pure (filters ++ [RetestRequiredFilter failedContexts allContexts])
         end
       else pure filters);
    filters ←
      (if (honorOkToTest && MatchString OkToTestRe body) || MatchString TestAllRe body then
         Debug ∅ "Using test-all filter.";;
         pure (filters ++ [TestAllFilter])
       else pure filters);
    return_ (Some (AggregateFilter filters), None)).

(** ** The summary builder *)

Definition AvailablePresubmits (changes : ChangedFilesProvider)
    (org repo branch : string) (presubmits : list Presubmit)
    : World -> (gset string * gset string * gset string * option error) * World :=
  func (
    let runWithTestAllNames : gset string := ∅ in
    let optionalJobTriggerCommands : gset string := ∅ in
    let requiredJobsTriggerCommands : gset string := ∅ in
    '(runWithTestAll, err) ←
      call (FilterPresubmits TestAllFilter changes branch presubmits);
    match err with
    | Some err =>
        return_ (runWithTestAllNames, optionalJobTriggerCommands,
                 requiredJobsTriggerCommands, Some err)
    | None =>
        let triggerFilters :=
          foldl (fun fs ps => fs ++ [CommandFilter (RerunCommand ps)]) [] presubmits in
        '(runWithTrigger, err) ←
          call (FilterPresubmits (AggregateFilter triggerFilters) changes branch presubmits);
        match err with
        | Some err =>
            return_ (runWithTestAllNames, optionalJobTriggerCommands,
                     requiredJobsTriggerCommands, Some err)
        | None =>
            let runWithTestAllNames :=
              foldl (fun names ps => Insert names (Name ps))
                    runWithTestAllNames runWithTestAll in
            let '(optionalJobTriggerCommands, requiredJobsTriggerCommands) :=
              foldl (fun '(optional, required) ps =>
                       if Optional ps
                       then (Insert optional (RerunCommand ps), required)
                       else (optional, Insert required (RerunCommand ps)))
                    (optionalJobTriggerCommands, requiredJobsTriggerCommands)
                    runWithTrigger in
            return_ (runWithTestAllNames, optionalJobTriggerCommands,
                     requiredJobsTriggerCommands, None)
        end
    end).

End Filters.

(** The three components of a filter's answer. *)
Definition matches (t : bool * bool * bool) : bool := t.1.1.
Definition forced (t : bool * bool * bool) : bool := t.1.2.
Definition defaultBehavior (t : bool * bool * bool) : bool := t.2.

Section Outcomes.

Context {config : PresubmitConfig}.

(** What the scan of [FilterPresubmits] meets at one presubmit: the
    eligibility rule is asked only when the filter matches, with the
    filter's [forced] and [defaultBehavior]. *)
Definition asked (filter : Filter) (changes : ChangedFilesProvider)
    (branch : string) (p : Presubmit) : bool * option error :=
  ShouldRun p branch changes (forced (filter p)) (defaultBehavior (filter p)).

(** The filter matches and the rule fails with this error. *)
Definition fails (filter : Filter) (changes : ChangedFilesProvider)
    (branch : string) (p : Presubmit) : option error :=
  if matches (filter p) then (asked filter changes branch p).2 else None.

(** The filter matches and the rule says yes. *)
Definition triggers (filter : Filter) (changes : ChangedFilesProvider)
    (branch : string) (p : Presubmit) : bool :=
  matches (filter p) && (asked filter changes branch p).1.

(** The filter matches and the rule says no. *)
Definition declined (filter : Filter) (changes : ChangedFilesProvider)
    (branch : string) (p : Presubmit) : bool :=
  matches (filter p) && negb (asked filter changes branch p).1.

Definition unmatched (filter : Filter) (p : Presubmit) : bool :=
  negb (matches (filter p)).

(** The entry [FilterPresubmits] logs when the scan is over. *)
Definition filtered_complete (names : list string) (total triggered no_match
    should_not_run : nat) : Entry :=
  {| level := DebugLevel;
     message := "Filtered complete.";
     fields := {[ "to-trigger" := Strings names;
                  "total-count" := Int total;
                  "to-trigger-count" := Int triggered;
                  "no-match-count" := Int no_match;
                  "should-not-run-count" := Int should_not_run ]} |}.

(** The chain of filters the specification describes for a body, given
    the context sets the retest filter and the retest-required filter are
    built from. *)
Definition chain (honorOkToTest : bool) (body : string)
    (retest retestRequired : gset string * gset string) : list Filter :=
  [CommandFilter body]
  ++ (if MatchString RetestRe body
      then [RetestFilter retest.1 retest.2] else [])
  ++ (if MatchString RetestRequiredRe body
      then [RetestRequiredFilter retestRequired.1 retestRequired.2] else [])
  ++ (if (honorOkToTest && MatchString OkToTestRe body) || MatchString TestAllRe body
      then [TestAllFilter] else []).

(** The world in which [PresubmitFilter] decides on the retest-required
    filter: after the call of the resolver for the retest filter, if that
    call was made. *)
Definition after_retest (getter : contextGetter) (body : string) (w : World) : World :=
  if MatchString RetestRe body
  then (getter (emit (info "Using retest filter.") w)).2 else w.

(** The answers of the resolver to the two calls [PresubmitFilter] can make. *)
Definition retest_call (getter : contextGetter) (body : string) (w : World)
    : gset string * gset string * option error :=
  (getter (emit (info "Using retest filter.") w)).1.

Definition retest_required_call (getter : contextGetter) (body : string) (w : World)
    : gset string * gset string * option error :=
  (getter (emit (info "Using retest-required filter") (after_retest getter body w))).1.

(** A resolver each call of which is counted in the world. *)
Definition counted (getter : contextGetter) : Prop :=
  forall w, resolved (getter w).2 = S (resolved w).

(** The rerun commands of the optional, or of the required, presubmits of
    a list. *)
Definition commands (opt : bool) (l : list Presubmit) : gset string :=
  list_to_set (map RerunCommand (List.filter (fun ps => eqb (Optional ps) opt) l)).


(** A resolver that answers each call with the same two sets. *)
Definition answers (getter : contextGetter) (failed all : gset string) : Prop :=
  forall w, (getter w).1 = (failed, all, None).

(** Whether [PresubmitFilter] puts [TestAllFilter] in the chain. *)
Definition selects_test_all (honorOkToTest : bool) (body : string) : bool :=
  (honorOkToTest && MatchString OkToTestRe body) || MatchString TestAllRe body.

End Outcomes.

(** ** The evaluator on a slice in memory

    In Go the presubmits that [FilterPresubmits] gets are a slice: the
    address of an array of [config.Presubmit] and a length.  The loop reads
    the elements one after the other from the array as it is at that
    moment, and between two reads it calls the filter, a closure, and the
    method [ShouldRun], which gets the provider of the changed files; both
    are code of the caller's and can do anything to the memory.  To say
    what becomes of the presubmits of the input, this is [FilterPresubmits]
    again with the array in the memory, and the filter and the eligibility
    rule as functions that read and write the memory.  The list it returns
    is a slice of its own, built by [append], and is a value here. *)

Module store.

Section Store.

Context {config : PresubmitConfig}.

(** The memory: the log, and the arrays of presubmits by address and
    index. *)
Record Memory : Type := {
  world : World;
  arrays : nat -> nat -> Presubmit
}.

(** A slice of presubmits: the address of its array and its length. *)
Record Slice : Type := {
  base : nat;
  len : nat
}.

(** The presubmits of a slice, as the memory has them. *)
Definition contents (m : Memory) (s : Slice) : list Presubmit :=
  map (arrays m (base s)) (seq 0 (len s)).

Definition Filter : Type := Presubmit -> Memory -> (bool * bool * bool) * Memory.

(** [presubmit.ShouldRun(branch, changes, forced, defaults)] *)
Definition Rule : Type :=
  Presubmit -> string -> ChangedFilesProvider -> bool -> bool ->
  Memory -> (bool * option error) * Memory.

(** The logger writes to the log and to nothing else. *)
Definition log (e : Entry) (m : Memory) : Memory :=
  {| world := emit e (world m); arrays := arrays m |}.

(** The [for ... range presubmits] loop from index [i], with [n] elements
    left to read. *)
Fixpoint rangePresubmits (filter : Filter) (shouldRun : Rule)
    (changes : ChangedFilesProvider) (branch : string) (presubmits : Slice)
    (n i : nat) (l : Locals) (m : Memory)
    : ((list Presubmit * option error) + Locals) * Memory :=
  match n with
  | O => (inr l, m)
  | S n' =>
      let presubmit := arrays m (base presubmits) i in
      let '((matches, forced, defaults), m) := filter presubmit m in
      if negb matches then
        rangePresubmits filter shouldRun changes branch presubmits n' (S i)
          {| toTrigger := toTrigger l; namesToTrigger := namesToTrigger l;
             noMatch := S (noMatch l); shouldnotRun := shouldnotRun l |} m
      else
        let '((run, err), m) :=
          shouldRun presubmit branch changes forced defaults m in
        match err with
        | Some err => (inl ([], Some (Errorf_should_run (Name presubmit) err)), m)
        | None =>
            if negb run then
              rangePresubmits filter shouldRun changes branch presubmits n' (S i)
                {| toTrigger := toTrigger l; namesToTrigger := namesToTrigger l;
                   noMatch := noMatch l; shouldnotRun := S (shouldnotRun l) |} m
            else
              rangePresubmits filter shouldRun changes branch presubmits n' (S i)
                {| toTrigger := toTrigger l ++ [presubmit];
                   namesToTrigger := namesToTrigger l ++ [Name presubmit];
                   noMatch := noMatch l; shouldnotRun := shouldnotRun l |} m
        end
  end.

Definition FilterPresubmits (filter : Filter) (shouldRun : Rule)
    (changes : ChangedFilesProvider) (branch : string) (presubmits : Slice)
    (m : Memory) : (list Presubmit * option error) * Memory :=
  match rangePresubmits filter shouldRun changes branch presubmits
          (len presubmits) 0 entered m with
  | (inl returned, m) => (returned, m)
  | (inr l, m) =>
      ((toTrigger l, None),
       log (debug {[ "to-trigger" := Strings (namesToTrigger l);
                     "total-count" := Int (len presubmits);
                     "to-trigger-count" := Int (length (toTrigger l));
                     "no-match-count" := Int (noMatch l);
                     "should-not-run-count" := Int (shouldnotRun l) ]}
                 "Filtered complete.") m)
  end.

(** A callee that does not write the presubmits of the slice. *)
Definition keeps {A : Type} (s : Slice) (callee : Memory -> A * Memory) : Prop :=
  forall m i, i < len s -> arrays (callee m).2 (base s) i = arrays m (base s) i.

(** A callee whose answer is [a], whatever the memory. *)
Definition fixed {A : Type} (callee : Memory -> A * Memory) (a : A) : Prop :=
  forall m, (callee m).1 = a.

End Store.

End store.

(** ** A sample configuration

    Jobs to run the definitions on.  A job's trigger is a pattern, here
    its rerun command alone on a line; it is
    eligible on the branches it lists (on all of them when it lists none),
    and then runs when it is forced or always runs, and otherwise as the
    default says.  [broken] is the failure of its eligibility rule, if it
    has one. *)

Module sample.

Record Job : Type := {
  name : string;
  context : string;
  rerun_command : string;
  optional : bool;
  trigger : Regexp;
  always_run : bool;
  explicit : bool;
  branches : list string;
  broken : option error
}.

Definition should_run (j : Job) (branch : string) (changes : ChangedFilesProvider)
    (forced defaults : bool) : bool * option error :=
  match broken j with
  | Some err => (false, Some err)
  | None =>
      if bool_decide (branches j = []) || bool_decide (branch ∈ branches j)
      then (always_run j || forced || defaults, None)
      else (false, None)
  end.

#[export] Instance jobs : PresubmitConfig := {|
  Presubmit := Job;
  Name := name;
  Context := context;
  RerunCommand := rerun_command;
  Optional := optional;
  TriggerMatches := fun j body => MatchString (trigger j) body;
  NeedsExplicitTrigger := explicit;
  ShouldRun := should_run
|}.

Definition job (n ctx cmd : string) (opt expl : bool) : Job :=
  {| name := n; context := ctx; rerun_command := cmd; optional := opt;
     trigger := command cmd; always_run := negb expl; explicit := expl;
     branches := []; broken := None |}.

Definition unit_ : Job := job "unit" "ci/unit" "/test unit" false false.
Definition lint : Job := job "lint" "ci/lint" "/test lint" false false.
Definition e2e : Job := job "e2e" "ci/e2e" "/test e2e" false true.
Definition flaky : Job := job "flaky" "ci/flaky" "/test flaky" true false.
Definition core : Job := job "core" "ci/core" "/test core" false false.

(** Two jobs behind one command, one of them optional. *)
Definition e2e_optional : Job := job "e2e-optional" "ci/e2e-optional" "/test e2e" true true.

Definition failing (j : Job) (msg : string) : Job :=
  {| name := name j; context := context j; rerun_command := rerun_command j;
     optional := optional j; trigger := trigger j; always_run := always_run j;
     explicit := explicit j; branches := branches j;
     broken := Some (errorString msg) |}.

Definition no_changes : ChangedFilesProvider := fun _ => ([], None).

Definition start : World := {| logged := []; resolved := 0 |}.

(** A resolver that answers with the given sets, and is counted. *)
Definition resolver (failed all : gset string) : contextGetter :=
  fun w => ((failed, all, None),
            {| logged := logged w; resolved := S (resolved w) |}).

Definition nl : string := String lf EmptyString.

(** A body with the two retest commands, each on its line. *)
Definition retest_then_required : string := "/retest" +:+ nl +:+ "/retest-required".

Definition two_broken : list Job :=
  [unit_; failing lint "no such branch"; failing core "timeout"].

Definition three_jobs : list Job := [unit_; e2e; lint].


Definition flaky_and_core : list Job := [flaky; core].

Definition four_jobs : list Job := [unit_; flaky; lint; e2e].

Definition on_branches (j : Job) (bs : list string) : Job :=
  {| name := name j; context := context j; rerun_command := rerun_command j;
     optional := optional j; trigger := trigger j; always_run := always_run j;
     explicit := explicit j; branches := bs; broken := broken j |}.

(** The three jobs in an array at address 7, and a slice of them. *)
Definition memory : store.Memory :=
  {| store.world := start;
     store.arrays := fun a i => if Nat.eqb a 7 then nth i three_jobs e2e else e2e |}.

Definition slice : store.Slice := {| store.base := 7; store.len := 3 |}.

(** A filter that logs each presubmit it is asked about. *)
Definition logging (f : Filter) : store.Filter :=
  fun p m => (f p, store.log (info (name p)) m).

Definition rule : store.Rule :=
  fun p branch changes forced defaults m =>
    (should_run p branch changes forced defaults, m).

(** A filter that overwrites the presubmit at index 2 of the array at
    address 7. *)
Definition overwriting (f : Filter) : store.Filter :=
  fun p m =>
    (f p,
     {| store.world := store.world m;
        store.arrays := fun a i =>
          if Nat.eqb a 7 && Nat.eqb i 2 then flaky else store.arrays m a i |}).

(** One command, optional on one branch and required on another. *)
Definition per_branch : list Job :=
  [on_branches e2e_optional ["main"]; on_branches e2e ["release-1.0"]].

(** The command filter of "/test unit", twice in an aggregate. *)
Definition unit_twice : Filter :=
  AggregateFilter [CommandFilter "/test unit"; CommandFilter "/test unit"].

End sample.

(** * Properties *)

(** ** The patterns

    [run] decides [Matches], and [MatchString] decides whether the pattern
    matches somewhere in the text. *)

Section Patterns.

Implicit Types (r : Regexp) (prev : option ascii) (s : string)
  (k : option ascii -> string -> bool).

Local Abbreviation len := String.length.

Lemma ahead_length prev s prev' s' :
  ahead prev s prev' s' ->
  len s' <= len s /\ (len s' = len s -> prev' = prev /\ s' = s).
Proof.
  induction 1 as [|prev a s prev' s' _ [IH _]]; simpl; [done|].
  split; lia.
Qed.

Lemma ahead_trans prev s prev1 s1 prev2 s2 :
  ahead prev s prev1 s1 -> ahead prev1 s1 prev2 s2 -> ahead prev s prev2 s2.
Proof. induction 1; [done|]. intros. constructor. auto. Qed.

Lemma Matches_ahead r prev s prev' s' :
  Matches r prev s prev' s' -> ahead prev s prev' s'.
Proof.
  induction 1; eauto using ahead_trans;
    try (constructor; constructor); constructor.
Qed.

Lemma iterate_mono step k k' fuel fuel' prev s :
  monotone step ->
  (forall prev' s', k prev' s' = true -> k' prev' s' = true) ->
  fuel <= fuel' ->
  iterate step k fuel prev s = true -> iterate step k' fuel' prev s = true.
Proof.
  intros Hstep Hk. revert fuel' prev s.
  induction fuel as [|fuel IH]; intros fuel' prev s Hle; simpl.
  - rewrite orb_false_r. intros Hhere%Hk.
    destruct fuel'; simpl; by rewrite Hhere.
  - intros [Hhere%Hk|Hmore]%orb_true_iff.
    { destruct fuel'; simpl; by rewrite Hhere. }
    destruct fuel' as [|fuel']; [lia|]. simpl.
    apply orb_true_iff. right. revert Hmore. apply Hstep.
    intros prev' s'. destruct (Nat.ltb _ _); [|done].
    apply IH. lia.
Qed.

Lemma run_mono r : monotone (run r).
Proof.
  induction r as [c| | | | |r1 IH1 r2 IH2|r1 IH1 r2 IH2|r1 IH1|r1 IH1];
    intros prev s k k' Hk; simpl.
  - destruct s as [|a s]; [done|]. destruct (Ascii.eqb a c); auto.
  - destruct s as [|a s]; [done|]. destruct (isSpace a); auto.
  - destruct s as [|a s]; [done|]. destruct (Ascii.eqb a lf); auto.
  - destruct prev as [a|]; [destruct (Ascii.eqb a lf)|]; auto.
  - destruct s as [|a s]; [|destruct (Ascii.eqb a lf)]; auto.
  - apply IH1. intros prev' s'. by apply IH2.
  - rewrite !orb_true_iff. intros [?|?]; [left|right]; eauto.
  - by apply iterate_mono.
  - rewrite !orb_true_iff. intros [?|?]; [left|right]; eauto.
Qed.

(** What [run] accepts is matched. *)
Lemma run_sound r prev s k :
  run r prev s k = true ->
  exists prev' s', Matches r prev s prev' s' /\ k prev' s' = true.
Proof.
  revert prev s k.
  induction r as [c| | | | |r1 IH1 r2 IH2|r1 IH1 r2 IH2|r1 IH1|r1 IH1];
    intros prev s k; simpl.
  - destruct s as [|a s]; [done|]. destruct (Ascii.eqb_spec a c) as [->|]; [|done].
    eauto using Matches.
  - destruct s as [|a s]; [done|]. destruct (isSpace a) eqn:Ha; [|done].
    eauto using Matches.
  - destruct s as [|a s]; [done|]. destruct (Ascii.eqb_spec a lf); [done|].
    eauto using Matches.
  - destruct prev as [a|]; [destruct (Ascii.eqb_spec a lf) as [->|]|];
      [|done|]; eauto using Matches.
  - destruct s as [|a s]; [|destruct (Ascii.eqb_spec a lf) as [->|]];
      [| |done]; eauto using Matches.
  - intros (prev1 & s1 & H1 & (prev2 & s2 & H2 & Hk)%IH2)%IH1.
    eauto using Matches.
  - intros [(prev' & s' & H1 & Hk)%IH1|(prev' & s' & H2 & Hk)%IH2]%orb_true_iff;
      eauto using Matches.
  - generalize (len s) as fuel. intros fuel. revert prev s.
    induction fuel as [|fuel IH]; intros prev s; simpl.
    + rewrite orb_false_r. eauto using Matches.
    + intros [Hk|(prev1 & s1 & H1 & Hmore)%IH1]%orb_true_iff;
        [eauto using Matches|].
      destruct (Nat.ltb _ _); [|done].
      apply IH in Hmore as (prev2 & s2 & H2 & Hk). eauto using Matches.
  - intros [(prev' & s' & H1 & Hk)%IH1|Hk]%orb_true_iff; eauto using Matches.
Qed.

(** What is matched, [run] accepts. *)
Lemma run_complete r prev s prev' s' k :
  Matches r prev s prev' s' -> k prev' s' = true -> run r prev s k = true.
Proof.
  intros Hm. revert k.
  induction Hm as
    [c prev s|a prev s Ha|a prev s Ha|s|s|prev|prev s
    |r1 r2 prev s prev1 s1 prev2 s2 _ IH1 _ IH2
    |r1 r2 prev s prev' s' _ IH|r1 r2 prev s prev' s' _ IH
    |r prev s prev' s' _ IH|r prev s|r prev s
    |r prev s prev1 s1 prev2 s2 H1 IH1 H2 IH2]; intros k Hk; simpl.
  - by rewrite Ascii.eqb_refl.
  - by rewrite Ha.
  - by destruct (Ascii.eqb_spec a lf).
  - done.
  - done.
  - done.
  - done.
  - apply IH1. by apply IH2.
  - by rewrite IH.
  - rewrite (IH k Hk). apply orb_true_r.
  - by rewrite IH.
  - rewrite Hk. apply orb_true_r.
  - destruct (len s); simpl; by rewrite Hk.
  - destruct (ahead_length _ _ _ _ (Matches_ahead _ _ _ _ _ H1)) as [Hle Heq].
    destruct (decide (len s1 = len s)) as [Hsame|Hless].
    { destruct (Heq Hsame) as [-> ->]. by apply IH2. }
    destruct (len s) as [|fuel] eqn:Hlen; [lia|]. simpl.
    apply orb_true_iff. right. apply IH1.
    rewrite Hlen. destruct (Nat.ltb_spec (len s1) (S fuel)) as [_|]; [|lia].
    specialize (IH2 k Hk). simpl in IH2. revert IH2.
    apply iterate_mono; [apply run_mono|done|lia].
Qed.

Lemma run_Matches r prev s k :
  run r prev s k = true <->
  exists prev' s', Matches r prev s prev' s' /\ k prev' s' = true.
Proof.
  split; [apply run_sound|].
  intros (prev' & s' & Hm & Hk). by apply (run_complete r prev s prev' s').
Qed.

Lemma search_Matches re prev s :
  search re prev s = true <->
  exists prev1 s1 prev2 s2, ahead prev s prev1 s1 /\ Matches re prev1 s1 prev2 s2.
Proof.
  revert prev. induction s as [|a s IH]; intros prev; simpl.
  - rewrite orb_false_r, run_Matches. split.
    + intros (prev2 & s2 & Hm & _). eauto 6 using ahead.
    + intros (prev1 & s1 & prev2 & s2 & Ha & Hm). inversion Ha; subst. eauto.
  - rewrite orb_true_iff, run_Matches, IH. split.
    + intros [(prev2 & s2 & Hm & _)|(prev1 & s1 & prev2 & s2 & Ha & Hm)];
        eauto 7 using ahead.
    + intros (prev1 & s1 & prev2 & s2 & Ha & Hm). inversion Ha; subst; eauto 7.
Qed.

(** [MatchString re text] holds exactly when [re] matches between two
    positions of the text. *)
Theorem MatchString_Matches re text :
  MatchString re text = true <->
  exists prev1 s1 prev2 s2, ahead None text prev1 s1 /\ Matches re prev1 s1 prev2 s2.
Proof. apply search_Matches. Qed.

(** *** A command alone on its line *)

Local Ltac invert H := inversion H; subst; clear H.

Lemma Matches_lit c tl prev s prev' s' :
  Matches (lit c tl) prev s prev' s' <->
  exists s1, s = c +:+ s1 /\ Matches tl (last_byte c prev) s1 prev' s'.
Proof.
  revert prev s. induction c as [|a c IH]; intros prev s; simpl.
  - split; [eauto|]. by intros (s1 & -> & Hm).
  - split.
    + intros Hm. invert Hm.
      match goal with H : Matches (Chr _) _ _ _ _ |- _ => invert H end.
      match goal with H : Matches (lit _ _) _ _ _ _ |- _ =>
        apply IH in H as (t & -> & H) end.
      eauto.
    + intros (s1 & -> & Hm). econstructor; [constructor|].
      apply IH. eauto.
Qed.

Lemma Matches_blanks prev s prev' s' :
  Matches (Star Space) prev s prev' s' ->
  exists u, s = u +:+ s' /\ blank u = true.
Proof.
  intros Hm. remember (Star Space) as r eqn:Hr.
  induction Hm as [| | | | | | | | | | | |r prev s
                  |r prev s prev1 s1 prev2 s2 H1 _ _ IH2]; try discriminate.
  - by exists "".
  - injection Hr as ->. destruct (IH2 eq_refl) as (u & -> & Hu).
    inversion H1 as [|a ? ? Ha| | | | | | | | | | | |]; subst.
    exists (String a u). simpl. by rewrite Ha.
Qed.

Lemma blanks_Matches u prev s :
  blank u = true ->
  Matches (Star Space) prev (u +:+ s) (last_byte u prev) s.
Proof.
  revert prev. induction u as [|a u IH]; intros prev; simpl; [constructor|].
  intros [Ha Hu]%andb_true_iff. econstructor; [by constructor|by apply IH].
Qed.

Lemma Matches_command c prev s :
  (exists prev' s', Matches (command c) prev s prev' s') <->
  line_start prev /\
  exists u rest, s = c +:+ u +:+ rest /\ blank u = true /\ line_end rest.
Proof.
  unfold command, line_start, line_end. split.
  - intros (prev' & s' & Hm). invert Hm.
    match goal with H : Matches (lit _ _) _ _ _ _ |- _ =>
      apply Matches_lit in H as (tl & -> & H); invert H end.
    match goal with H : Matches (Star Space) _ _ _ _ |- _ =>
      apply Matches_blanks in H as (u & -> & Hu) end.
    match goal with H : Matches Bol _ _ _ _ |- _ => invert H end;
      (split; [auto|]);
      match goal with H : Matches Eol _ _ _ _ |- _ => invert H end; eauto 7.
  - intros (Hstart & u & rest & -> & Hu & Hend).
    exists (last_byte u (last_byte c prev)), rest.
    econstructor; [destruct Hstart as [->| ->]; constructor|].
    apply Matches_lit. eexists. split; [done|].
    econstructor; [by apply blanks_Matches|].
    destruct Hend as [->|[rest' ->]]; constructor.
Qed.

(** Blanks that reach the end of a line reach the end of their own line. *)
Lemma blank_first_line u rest :
  blank u = true -> line_end rest ->
  exists u' rest',
    u +:+ rest = u' +:+ rest' /\ blank_inline u' = true /\ line_end rest'.
Proof.
  intros Hu Hend. induction u as [|a u IH]; simpl in *; [by exists "", rest|].
  apply andb_true_iff in Hu as [Ha Hu].
  destruct (Ascii.eqb_spec a lf) as [->|Hlf].
  - exists "", (String lf (u +:+ rest)). unfold line_end. eauto.
  - destruct (IH Hu) as (u' & rest' & Heq & Hu' & Hend').
    exists (String a u'), rest'. split.
    + change (String a (u +:+ rest) = String a (u' +:+ rest')). by rewrite Heq.
    + simpl. rewrite Ha, Hu'. by destruct (Ascii.eqb_spec a lf).
Qed.

Lemma blank_inline_blank u : blank_inline u = true -> blank u = true.
Proof.
  induction u as [|a u IH]; simpl; [done|].
  intros [[-> _]%andb_true_iff Hu]%andb_true_iff. by apply IH.
Qed.

(** [MatchString (command c) text] holds exactly when some line of the
    text is [c] followed by blanks only: [c] is read from the start of a
    line, and after it and some blanks of the same line the line ends. *)
Theorem MatchString_command c text :
  MatchString (command c) text = true <->
  exists prev u rest,
    ahead None text prev (c +:+ u +:+ rest) /\
    line_start prev /\ blank_inline u = true /\ line_end rest.
Proof.
  rewrite MatchString_Matches. split.
  - intros (prev & s & prev' & s' & Ha & Hm).
    destruct (proj1 (Matches_command c prev s)) as (Hs & u & rest & -> & Hu & He);
      [eauto|].
    destruct (blank_first_line u rest Hu He) as (u' & rest' & Heq & Hu' & He').
    rewrite Heq in Ha. eauto 10.
  - intros (prev & u & rest & Ha & Hs & Hu%blank_inline_blank & He).
    destruct (proj2 (Matches_command c prev (c +:+ u +:+ rest)))
      as (prev' & s' & Hm); eauto 10.
Qed.

Lemma command_patterns :
  RetestRe = command "/retest"
  /\ RetestRequiredRe = command "/retest-required"
  /\ OkToTestRe = command "/ok-to-test".
Proof. done. Qed.

Lemma Matches_Cat r1 r2 prev s prev' s' :
  Matches (Cat r1 r2) prev s prev' s' <->
  exists prev1 s1, Matches r1 prev s prev1 s1 /\ Matches r2 prev1 s1 prev' s'.
Proof.
  split; [intros Hm; invert Hm; eauto|].
  intros (prev1 & s1 & H1 & H2). by econstructor.
Qed.

Lemma Matches_Bol prev s prev' s' :
  Matches Bol prev s prev' s' <-> line_start prev /\ prev' = prev /\ s' = s.
Proof.
  unfold line_start. split; [intros Hm; invert Hm; auto|].
  intros ([-> | ->] & -> & ->); constructor.
Qed.

Lemma Matches_Eol prev s prev' s' :
  Matches Eol prev s prev' s' <-> line_end s /\ prev' = prev /\ s' = s.
Proof.
  unfold line_end. split; [intros Hm; invert Hm; eauto|].
  intros ([-> | [t ->]] & -> & ->); constructor.
Qed.

Lemma Matches_optional_comma prev s prev' s' :
  Matches (Quest (Chr ",")) prev s prev' s' ->
  exists comma, s = comma +:+ s' /\ (comma = "" \/ comma = ",").
Proof.
  intros Hm. invert Hm.
  - match goal with H : Matches (Chr _) _ _ _ _ |- _ => invert H end.
    exists ",". auto.
  - exists "". auto.
Qed.

Lemma Matches_end_or_blank prev s prev' s' :
  Matches (Alt Eol (Cat Space (Star Dot))) prev s prev' s' ->
  line_end s \/ exists a t, s = String a t /\ isSpace a = true.
Proof.
  intros Hm. invert Hm.
  - match goal with H : Matches Eol _ _ _ _ |- _ =>
      apply Matches_Eol in H as (? & _) end. auto.
  - match goal with H : Matches (Cat _ _) _ _ _ _ |- _ =>
      apply Matches_Cat in H as (? & ? & H & _); invert H end.
    eauto.
Qed.

(** [MatchString TestAllRe text] holds exactly when some line of the text
    starts with "/test all", then an optional comma, and then ends or goes
    on with a blank. *)
Theorem MatchString_TestAllRe text :
  MatchString TestAllRe text = true <->
  exists prev comma rest,
    ahead None text prev ("/test all" +:+ comma +:+ rest) /\
    line_start prev /\ (comma = "" \/ comma = ",") /\
    (line_end rest \/ exists a t, rest = String a t /\ isSpace a = true).
Proof.
  rewrite MatchString_Matches. unfold TestAllRe. split.
  - intros (prev & s & prev' & s' & Ha & Hm).
    apply Matches_Cat in Hm as (prev1 & s1 & (Hs & -> & ->)%Matches_Bol & Hm).
    apply Matches_lit in Hm as (t & -> & Hm).
    apply Matches_Cat in Hm as (prev2 & t2 & Hc & Hm).
    apply Matches_optional_comma in Hc as (comma & -> & Hc).
    apply Matches_end_or_blank in Hm. eauto 10.
  - intros (prev & comma & rest & Ha & Hs & Hc & Hr).
    assert (exists prev' s',
      Matches (Alt Eol (Cat Space (Star Dot)))
        (last_byte comma (last_byte "/test all" prev)) rest prev' s')
      as (prev' & s' & Hm).
    { destruct Hr as [Hr|(a & t & -> & Hsp)].
      - eexists _, _. apply MAlt_l. apply Matches_Eol. eauto.
      - eexists _, _. apply MAlt_r. econstructor; [by constructor|constructor]. }
    exists prev, ("/test all" +:+ comma +:+ rest), prev', s'.
    split; [done|]. apply Matches_Cat. eexists _, _.
    split; [by apply Matches_Bol|].
    apply Matches_lit. eexists. split; [done|].
    apply Matches_Cat. exists (last_byte comma (last_byte "/test all" prev)), rest.
    split; [|done].
    destruct Hc as [-> | ->]; [apply MQuest_none|apply MQuest_one; constructor].
Qed.

End Patterns.

Section Properties.

Context {config : PresubmitConfig}.

Implicit Types (p : Presubmit) (filters : list Filter) (body : string).

(** ** The filter constructors *)

Lemma AggregateFilter_find filters p :
  AggregateFilter filters p =
  from_option (fun f => f p) (false, false, false)
    (List.find (fun f => matches (f p)) filters).
Proof.
  induction filters as [|f fs IH]; simpl; [done|].
  rewrite IH. unfold matches at 2.
  destruct (f p) as [[[] fo] d] eqn:E; simpl; [by rewrite E | done].
Qed.

Lemma AggregateFilter_skip pre filters p :
  Forall (fun g => matches (g p) = false) pre ->
  AggregateFilter (pre ++ filters) p = AggregateFilter filters p.
Proof.
  induction 1 as [|g pre Hg _ IH]; simpl; [done|].
  unfold matches in Hg. destruct (g p) as [[m fo] d]; simpl in *.
  by subst m.
Qed.

Lemma AggregateFilter_hit f filters p :
  matches (f p) = true -> AggregateFilter (f :: filters) p = f p.
Proof.
  unfold matches; simpl. destruct (f p) as [[m fo] d]; simpl.
  by intros ->.
Qed.

Lemma AggregateFilter_none filters p :
  Forall (fun g => matches (g p) = false) filters ->
  AggregateFilter filters p = (false, false, false).
Proof.
  intros Hno. rewrite <- (app_nil_r filters).
  by rewrite AggregateFilter_skip.
Qed.

(** C1. [AggregateFilter filters] answers with the tuple of the first
    filter, in the order given, whose [matches] component is true: the
    filters before it do not match and the ones after it are not
    consulted.  When no filter matches, and so for the empty list, the
    answer is (false, false, false).  The order matters: two filters that
    both match a presubmit give different answers in their two orders. *)
Theorem AggregateFilter_first_match filters p :
  AggregateFilter filters p =
    from_option (fun f => f p) (false, false, false)
      (List.find (fun f => matches (f p)) filters)
  /\ (forall pre f post,
        filters = pre ++ f :: post ->
        Forall (fun g => matches (g p) = false) pre ->
        matches (f p) = true ->
        AggregateFilter filters p = f p)
  /\ (Forall (fun g => matches (g p) = false) filters ->
      AggregateFilter filters p = (false, false, false))
  /\ AggregateFilter [] p = (false, false, false)
  /\ (exists f g : Filter,
        matches (f p) = true /\ matches (g p) = true /\
        [f; g] ≡ₚ [g; f] /\
        AggregateFilter [f; g] p <> AggregateFilter [g; f] p).
Proof.
  split; [apply AggregateFilter_find|].
  split.
  { intros pre f post -> Hpre Hf.
    rewrite AggregateFilter_skip by done. by apply AggregateFilter_hit. }
  split; [apply AggregateFilter_none|].
  split; [done|].
  exists (fun _ => (true, true, true)), (fun _ => (true, false, false)).
  repeat split; [apply Permutation_swap | simpl; congruence].
Qed.

(** C2. [RetestFilter failed all] matches a presubmit exactly when its
    context is in [failed], or it needs no explicit trigger and its context
    is not in [all]; it never forces, and its default is whether the
    context is in [failed].  [RetestRequiredFilter failed all] answers
    (false, false, false) on every optional presubmit, and as
    [RetestFilter failed all] on every other. *)
Theorem RetestFilter_RetestRequiredFilter (failed all : gset string) p :
  (matches (RetestFilter failed all p) = true <->
     Context p ∈ failed \/ (NeedsExplicitTrigger p = false /\ Context p ∉ all))
  /\ forced (RetestFilter failed all p) = false
  /\ (defaultBehavior (RetestFilter failed all p) = true <-> Context p ∈ failed)
  /\ (Optional p = true ->
      RetestRequiredFilter failed all p = (false, false, false))
  /\ (Optional p = false ->
      RetestRequiredFilter failed all p = RetestFilter failed all p).
Proof.
  unfold RetestRequiredFilter, RetestFilter, matches, forced, defaultBehavior, Has.
  simpl. repeat split.
  - rewrite orb_true_iff, andb_true_iff, !negb_true_iff.
    rewrite bool_decide_eq_true, bool_decide_eq_false. tauto.
  - rewrite orb_true_iff, andb_true_iff, !negb_true_iff.
    rewrite bool_decide_eq_true, bool_decide_eq_false. tauto.
  - by rewrite bool_decide_eq_true.
  - by rewrite bool_decide_eq_true.
  - by intros ->.
  - by intros ->.
Qed.

(** C3, as the code has it.  [CommandFilter c] answers (true, true, true)
    on a presubmit whose trigger matches [c], and (false, false, true) on
    one whose trigger does not: the default is true either way. *)
Theorem CommandFilter_by_trigger (c : string) p :
  (TriggerMatches p c = true -> CommandFilter c p = (true, true, true))
  /\ (TriggerMatches p c = false -> CommandFilter c p = (false, false, true)).
Proof. unfold CommandFilter. by split; intros ->. Qed.

(** C10. In the answer of [CommandFilter body], [forced] equals [matches],
    both being [TriggerMatches p body], and the default is true whether
    or not the trigger matches. *)
Theorem CommandFilter_components body p :
  matches (CommandFilter body p) = TriggerMatches p body
  /\ forced (CommandFilter body p) = matches (CommandFilter body p)
  /\ defaultBehavior (CommandFilter body p) = true
  /\ (TriggerMatches p body = false ->
      CommandFilter body p = (false, false, true)).
Proof. unfold CommandFilter. repeat split. by intros ->. Qed.

(** ** The evaluator *)

Section Scan.

Variables (filter : Filter) (changes : ChangedFilesProvider) (branch : string).

Local Abbreviation quiet := (fun p => fails filter changes branch p = None).

(** The loop, when no rule fails: the invariant of its local variables. *)
Lemma rangePresubmits_quiet presubmits l w :
  Forall quiet presubmits ->
  rangePresubmits filter changes branch presubmits l w =
  (inr {| toTrigger :=
            toTrigger l ++ List.filter (triggers filter changes branch) presubmits;
          namesToTrigger :=
            namesToTrigger l
            ++ map Name (List.filter (triggers filter changes branch) presubmits);
          noMatch :=
            noMatch l + length (List.filter (unmatched filter) presubmits);
          shouldnotRun :=
            shouldnotRun l
            + length (List.filter (declined filter changes branch) presubmits) |},
   w).
Proof.
  intros Hq. revert l.
  induction Hq as [|p ps Hp _ IH]; intros l.
  - simpl. rewrite !app_nil_r, !Nat.add_0_r. by destruct l.
  - simpl. unfold fails, triggers, declined, unmatched, asked,
      matches, forced, defaultBehavior in *.
    destruct (filter p) as [[m fo] d]; simpl in *.
    destruct m; simpl in *.
    + destruct (ShouldRun p branch changes fo d) as [run err]; simpl in *.
      subst err. destruct run; simpl; rewrite IH; simpl.
      * by rewrite <- !app_assoc.
      * do 2 f_equal. f_equal. lia.
    + rewrite IH; simpl. do 2 f_equal. f_equal. lia.
Qed.

(** The loop, when a rule fails: it returns at the first failure. *)
Lemma rangePresubmits_failure pre p post e l w :
  Forall quiet pre ->
  fails filter changes branch p = Some e ->
  rangePresubmits filter changes branch (pre ++ p :: post) l w =
  (inl ([], Some (Errorf_should_run (Name p) e)), w).
Proof.
  intros Hq Hp. revert l.
  induction Hq as [|q qs Hq' _ IH]; intros l; simpl.
  - unfold fails, asked, matches, forced, defaultBehavior in Hp.
    destruct (filter p) as [[m fo] d]; simpl in *.
    destruct m; simpl in *; [|done].
    destruct (ShouldRun p branch changes fo d) as [run err]; simpl in *.
    by subst err.
  - unfold fails, asked, matches, forced, defaultBehavior in Hq'.
    destruct (filter q) as [[m fo] d]; simpl in *.
    destruct m; simpl in *; [|apply IH].
    destruct (ShouldRun q branch changes fo d) as [run err]; simpl in *.
    subst err. destruct run; simpl; apply IH.
Qed.

(** A list has no failure, or it has a first one. *)
Lemma first_failure presubmits :
  Forall quiet presubmits \/
  exists pre p post e,
    presubmits = pre ++ p :: post /\ Forall quiet pre /\
    fails filter changes branch p = Some e.
Proof.
  induction presubmits as [|q qs IH]; [by left|].
  destruct (fails filter changes branch q) as [e|] eqn:Hq.
  - right. by exists [], q, qs, e.
  - destruct IH as [IH|(pre & p & post & e & -> & Hpre & Hp)].
    + left. by constructor.
    + right. exists (q :: pre), p, post, e. repeat split; [|done].
      by constructor.
Qed.

Lemma FilterPresubmits_quiet presubmits w :
  Forall quiet presubmits ->
  FilterPresubmits filter changes branch presubmits w =
  let result := List.filter (triggers filter changes branch) presubmits in
  ((result, None),
   emit (filtered_complete (map Name result) (length presubmits) (length result)
           (length (List.filter (unmatched filter) presubmits))
           (length (List.filter (declined filter changes branch) presubmits))) w).
Proof.
  intros Hq. unfold FilterPresubmits, func, mbind, go_bind, bind.
  by rewrite rangePresubmits_quiet.
Qed.

Lemma FilterPresubmits_failure pre p post e w :
  Forall quiet pre ->
  fails filter changes branch p = Some e ->
  FilterPresubmits filter changes branch (pre ++ p :: post) w =
  (([], Some (Errorf_should_run (Name p) e)), w).
Proof.
  intros Hq Hp. unfold FilterPresubmits, func, mbind, go_bind, bind.
  by rewrite (rangePresubmits_failure pre p post e).
Qed.

(** The three outcomes partition the list. *)
Lemma outcomes_partition presubmits :
  Forall quiet presubmits ->
  length (List.filter (unmatched filter) presubmits)
  + length (List.filter (declined filter changes branch) presubmits)
  + length (List.filter (triggers filter changes branch) presubmits)
  = length presubmits.
Proof.
  induction presubmits as [|p ps IH]; [done|].
  intros Hq. apply Forall_cons in Hq as [_ Hq]. specialize (IH Hq).
  unfold unmatched, declined, triggers in *. simpl.
  destruct (matches (filter p)); simpl;
    [destruct (asked filter changes branch p).1; simpl|]; lia.
Qed.

Lemma filter_sublist {A} (f : A -> bool) (l : list A) :
  sublist (List.filter f l) l.
Proof.
  induction l as [|a l IH]; simpl; [constructor|].
  destruct (f a); by constructor.
Qed.

Lemma quiet_or_failure presubmits w r w' :
  FilterPresubmits filter changes branch presubmits w = ((r, None), w') ->
  Forall quiet presubmits.
Proof.
  intros Hrun.
  destruct (first_failure presubmits)
    as [Hq|(pre & p & post & e & -> & Hpre & Hp)]; [done|].
  by rewrite (FilterPresubmits_failure pre p post e) in Hrun.
Qed.

(** A successful run: no rule failed, the result is the selection, and
    its members are the matched and accepted presubmits of the input. *)
Lemma FilterPresubmits_selection presubmits w result w' :
  FilterPresubmits filter changes branch presubmits w = ((result, None), w') ->
  Forall quiet presubmits
  /\ result = List.filter (triggers filter changes branch) presubmits
  /\ (forall p, p ∈ result <->
         p ∈ presubmits /\ matches (filter p) = true /\
         ShouldRun p branch changes (forced (filter p))
           (defaultBehavior (filter p)) = (true, None)).
Proof.
  intros Hrun. pose proof (quiet_or_failure _ _ _ _ Hrun) as Hq.
  rewrite FilterPresubmits_quiet in Hrun by done. simpl in Hrun.
  injection Hrun as <- <-.
  split; [done|]. split; [done|].
  intros p. rewrite !list_elem_of_In, filter_In, <- list_elem_of_In.
  split.
  - intros [Hin Ht]. split; [done|].
    rewrite Forall_forall in Hq. specialize (Hq p Hin).
    unfold fails, triggers, asked in *.
    destruct (matches (filter p)); [|done]. split; [done|].
    destruct (ShouldRun _ _ _ _ _) as [run err]; simpl in *. congruence.
  - intros (Hin & Hm & Hrun). split; [done|].
    unfold triggers, asked. by rewrite Hm, Hrun.
Qed.

(** C5. When the eligibility rule fails on a presubmit the filter matches,
    [FilterPresubmits] returns no presubmits and the error built from the
    first such presubmit of the list: its message is the presubmit's name,
    then ": should run: ", then the message of the rule's error, and it
    wraps that error.  Nothing is logged. *)
Theorem FilterPresubmits_error presubmits w :
  (exists p, p ∈ presubmits /\ matches (filter p) = true /\
     is_Some (ShouldRun p branch changes (forced (filter p))
                (defaultBehavior (filter p))).2) ->
  exists pre p post e,
    presubmits = pre ++ p :: post
    /\ Forall (fun q => fails filter changes branch q = None) pre
    /\ matches (filter p) = true
    /\ (ShouldRun p branch changes (forced (filter p))
          (defaultBehavior (filter p))).2 = Some e
    /\ FilterPresubmits filter changes branch presubmits w =
       (([], Some (wrapError (Name p +:+ ": should run: " +:+ Error e) e)), w)
    /\ (forall err,
          (FilterPresubmits filter changes branch presubmits w).1.2 = Some err ->
          Unwrap err = Some e).
Proof.
  intros (p0 & Hin & Hm & [e0 He0]).
  destruct (first_failure presubmits)
    as [Hq|(pre & p & post & e & -> & Hpre & Hp)].
  - rewrite Forall_forall in Hq. specialize (Hq p0 Hin).
    unfold fails, asked in Hq. rewrite Hm in Hq. congruence.
  - exists pre, p, post, e.
    assert (matches (filter p) = true /\
            (asked filter changes branch p).2 = Some e) as [Hpm Hpe].
    { unfold fails in Hp. by destruct (matches (filter p)). }
    rewrite (FilterPresubmits_failure pre p post e) by done.
    repeat split; try done.
    simpl. by intros err [= <-].
Qed.

(** C6. When [FilterPresubmits] succeeds, the list it returns is the input
    list restricted, in its order, to the presubmits that the filter
    matches and the eligibility rule accepts; and the entry it logs counts
    the input, the unmatched, the declined and the triggered presubmits,
    the last three adding up to the first. *)
Theorem FilterPresubmits_success presubmits w result w' :
  FilterPresubmits filter changes branch presubmits w = ((result, None), w') ->
  result = List.filter (triggers filter changes branch) presubmits
  /\ sublist result presubmits
  /\ (forall p, p ∈ result <->
         p ∈ presubmits /\ matches (filter p) = true /\
         ShouldRun p branch changes (forced (filter p))
           (defaultBehavior (filter p)) = (true, None))
  /\ exists entry no_match should_not_run,
       w' = emit entry w
       /\ fields entry !! "to-trigger" = Some (Strings (map Name result))
       /\ fields entry !! "total-count" = Some (Int (length presubmits))
       /\ fields entry !! "to-trigger-count" = Some (Int (length result))
       /\ fields entry !! "no-match-count" = Some (Int no_match)
       /\ fields entry !! "should-not-run-count" = Some (Int should_not_run)
       /\ no_match = length (List.filter (unmatched filter) presubmits)
       /\ should_not_run =
            length (List.filter (declined filter changes branch) presubmits)
       /\ no_match + should_not_run + length result = length presubmits.
Proof.
  intros Hrun.
  destruct (FilterPresubmits_selection _ _ _ _ Hrun) as (Hq & Hres & Hmem).
  rewrite FilterPresubmits_quiet in Hrun by done. simpl in Hrun.
  injection Hrun as _ <-.
  split; [done|]. split; [rewrite Hres; apply filter_sublist|].
  split; [done|].
  eexists _, _, _. split; [reflexivity|]. rewrite Hres.
  repeat split; [by apply outcomes_partition].
Qed.

(** The result of [FilterPresubmits] is the same from any two states of
    the world.  A run writes at most one entry to the log and leaves the
    rest of the world as it was; the presubmits it returns are presubmits
    of the input. *)
Lemma FilterPresubmits_world presubmits w1 w2 :
  let run := FilterPresubmits filter changes branch presubmits in
  (run w1).1 = (run w2).1
  /\ (run (run w1).2).1 = (run w1).1
  /\ resolved (run w1).2 = resolved w1
  /\ (exists entries,
        logged (run w1).2 = logged w1 ++ entries /\ length entries <= 1)
  /\ sublist (run w1).1.1 presubmits.
Proof.
  assert (forall w,
    let run := FilterPresubmits filter changes branch presubmits in
    (run w).1 = (run w1).1 /\ resolved (run w).2 = resolved w /\
    (exists entries, logged (run w).2 = logged w ++ entries /\ length entries <= 1)
    /\ sublist (run w).1.1 presubmits) as Hall.
  { intros w.
    destruct (first_failure presubmits)
      as [Hq|(pre & p & post & e & -> & Hpre & Hp)]; simpl.
    - rewrite !FilterPresubmits_quiet by done. simpl.
      repeat split; [|apply filter_sublist]. eexists [_]. split; [done|simpl; lia].
    - rewrite !(FilterPresubmits_failure pre p post e) by done. simpl.
      repeat split; [|apply sublist_nil_l]. exists []. split; [by rewrite app_nil_r|simpl; lia]. }
  simpl. split; [|split].
  - by destruct (Hall w2) as [-> _].
  - by destruct (Hall (FilterPresubmits filter changes branch presubmits w1).2)
      as [-> _].
  - by destruct (Hall w1) as (_ & ? & ? & ?).
Qed.

End Scan.

(** ** The chain builder *)

Section Chain.

Variables (honorOkToTest : bool) (getter : contextGetter) (body : string).

(** C4. When the calls of the resolver that [PresubmitFilter] makes
    succeed, it returns the aggregate of this chain, in this order:
    [CommandFilter body]; the retest filter, built from the resolver's
    answer, exactly when [RetestRe] matches the body; the retest-required
    filter, built from the resolver's answer, exactly when
    [RetestRequiredRe] matches; [TestAllFilter] exactly when [OkToTestRe]
    matches and is honoured, or [TestAllRe] matches.  A presubmit whose
    trigger matches the body gets the answer of [CommandFilter], whatever
    else is in the chain. *)
Theorem PresubmitFilter_chain (w : World) :
  let retest := retest_call getter body w in
  let retestRequired := retest_required_call getter body w in
  (MatchString RetestRe body = true -> retest.2 = None) ->
  (MatchString RetestRequiredRe body = true -> retestRequired.2 = None) ->
  let filters := chain honorOkToTest body retest.1 retestRequired.1 in
  (PresubmitFilter honorOkToTest getter body w).1 =
    (Some (AggregateFilter filters), None)
  /\ (exists rest, filters = CommandFilter body :: rest)
  /\ (forall p, TriggerMatches p body = true ->
        AggregateFilter filters p = CommandFilter body p
        /\ AggregateFilter filters p = (true, true, true))
  /\ (forall rest p, TriggerMatches p body = true ->
        AggregateFilter (CommandFilter body :: rest) p = CommandFilter body p).
Proof.
  intros retest retestRequired H1 H2 filters.
  split; [|split; [|split]]; cycle 3.
  { intros rest p Hp. apply AggregateFilter_hit.
    unfold CommandFilter, matches. by rewrite Hp. }
  - subst filters retest retestRequired.
    revert H1 H2.
    unfold PresubmitFilter, chain, retest_required_call, after_retest, retest_call.
    unfold func, mbind, go_bind, bind, call, Info, Debug, pure, return_.
    generalize (MatchString RetestRe body) as b1.
    generalize (MatchString RetestRequiredRe body) as b2.
    generalize ((honorOkToTest && MatchString OkToTestRe body)
                || MatchString TestAllRe body) as b3.
    intros b3 b2 [] H1 H2.
    + destruct (getter (emit (info "Using retest filter.") w))
        as [[[f1 a1] e1] w1]; simpl in *.
      rewrite (H1 eq_refl). destruct b2.
      * destruct (getter (emit (info "Using retest-required filter") w1))
          as [[[f2 a2] e2] w2]; simpl in *.
        rewrite (H2 eq_refl). by destruct b3.
      * by destruct b3.
    + destruct b2.
      * destruct (getter (emit (info "Using retest-required filter") w))
          as [[[f2 a2] e2] w2]; simpl in *.
        rewrite (H2 eq_refl). by destruct b3.
      * by destruct b3.
  - by eexists.
  - intros p Hp. unfold filters, chain. simpl.
    unfold CommandFilter. by rewrite Hp.
Qed.

(** C8, as the code has it.  [PresubmitFilter] calls the resolver only
    for a retest pattern: when neither [RetestRe] nor [RetestRequiredRe]
    matches the body, the resolver is not called, and the result does not
    depend on it.  It calls it once for each of the two patterns that
    matches: once when one of them matches, and twice when both do, unless
    the first call fails, which ends the construction. *)
Theorem PresubmitFilter_resolver_calls (w : World) :
  counted getter ->
  let after := (PresubmitFilter honorOkToTest getter body w).2 in
  (MatchString RetestRe body = false ->
   MatchString RetestRequiredRe body = false ->
   resolved after = resolved w
   /\ forall getter', PresubmitFilter honorOkToTest getter' body w =
                      PresubmitFilter honorOkToTest getter body w)
  /\ (MatchString RetestRe body = true ->
      MatchString RetestRequiredRe body = false ->
      resolved after = resolved w + 1)
  /\ (MatchString RetestRe body = false ->
      MatchString RetestRequiredRe body = true ->
      resolved after = resolved w + 1)
  /\ (MatchString RetestRe body = true ->
      MatchString RetestRequiredRe body = true ->
      (retest_call getter body w).2 = None ->
      resolved after = resolved w + 2)
  /\ (MatchString RetestRe body = true ->
      MatchString RetestRequiredRe body = true ->
      forall err, (retest_call getter body w).2 = Some err ->
      resolved after = resolved w + 1
      /\ (PresubmitFilter honorOkToTest getter body w).1 = (None, Some err)).
Proof.
  intros Hc after. subst after.
  unfold PresubmitFilter, retest_call.
  unfold func, mbind, go_bind, bind, call, Info, Debug, pure, return_.
  generalize (MatchString RetestRe body) as b1.
  generalize (MatchString RetestRequiredRe body) as b2.
  generalize ((honorOkToTest && MatchString OkToTestRe body)
              || MatchString TestAllRe body) as b3.
  intros b3 b2 b1.
  split; [|split; [|split; [|split]]]; intros -> ->.
  - split; [|intros getter']; by destruct b3.
  - pose proof (Hc (emit (info "Using retest filter.") w)) as H1.
    destruct (getter _) as [[[f1 a1] [e1|]] w1]; simpl in *;
      [|destruct b3; simpl]; lia.
  - pose proof (Hc (emit (info "Using retest-required filter") w)) as H1.
    destruct (getter _) as [[[f1 a1] [e1|]] w1]; simpl in *;
      [|destruct b3; simpl]; lia.
  - pose proof (Hc (emit (info "Using retest filter.") w)) as H1.
    destruct (getter (emit (info "Using retest filter.") w))
      as [[[f1 a1] e1] w1]; simpl in *.
    intros ->.
    pose proof (Hc (emit (info "Using retest-required filter") w1)) as H2.
    destruct (getter _) as [[[f2 a2] [e2|]] w2]; simpl in *;
      [|destruct b3; simpl]; lia.
  - pose proof (Hc (emit (info "Using retest filter.") w)) as H1.
    destruct (getter (emit (info "Using retest filter.") w))
      as [[[f1 a1] e1] w1]; simpl in *.
    intros err ->. simpl. split; [lia|done].
Qed.

End Chain.

(** ** The summary builder *)

Section Summary.

Variables (changes : ChangedFilesProvider) (org repo branch : string).

Lemma triggerFilters_map (presubmits : list Presubmit) (acc : list Filter) :
  foldl (fun fs ps => fs ++ [CommandFilter (RerunCommand ps)]) acc presubmits =
  acc ++ map (fun ps => CommandFilter (RerunCommand ps)) presubmits.
Proof.
  revert acc. induction presubmits as [|p ps IH]; intros acc; simpl.
  - by rewrite app_nil_r.
  - by rewrite IH, <- app_assoc.
Qed.

Lemma names_fold (l : list Presubmit) (acc : gset string) :
  foldl (fun names ps => Insert names (Name ps)) acc l =
  acc ∪ list_to_set (map Name l).
Proof.
  revert acc. induction l as [|p ps IH]; intros acc; simpl.
  - set_solver.
  - rewrite IH. unfold Insert. set_solver.
Qed.

Lemma commands_fold (l : list Presubmit) (optional required : gset string) :
  foldl (fun '(optional, required) ps =>
           if Optional ps
           then (Insert optional (RerunCommand ps), required)
           else (optional, Insert required (RerunCommand ps)))
        (optional, required) l =
  (optional ∪ commands true l, required ∪ commands false l).
Proof.
  revert optional required.
  induction l as [|p ps IH]; intros optional required; simpl.
  - unfold commands. simpl. f_equal; set_solver.
  - unfold commands in *. simpl.
    destruct (Optional p); simpl; rewrite IH; unfold Insert; f_equal; set_solver.
Qed.

(** The two passes of [AvailablePresubmits]. *)
Lemma AvailablePresubmits_passes (presubmits : list Presubmit) (w : World) :
  AvailablePresubmits changes org repo branch presubmits w =
  match FilterPresubmits TestAllFilter changes branch presubmits w with
  | ((_, Some err), w1) => ((∅, ∅, ∅, Some err), w1)
  | ((runWithTestAll, None), w1) =>
      let triggerFilters :=
        map (fun ps => CommandFilter (RerunCommand ps)) presubmits in
      match FilterPresubmits (AggregateFilter triggerFilters)
              changes branch presubmits w1 with
      | ((_, Some err), w2) => ((∅, ∅, ∅, Some err), w2)
      | ((runWithTrigger, None), w2) =>
          ((list_to_set (map Name runWithTestAll),
            commands true runWithTrigger,
            commands false runWithTrigger, None), w2)
      end
  end.
Proof.
  unfold AvailablePresubmits, func, mbind, go_bind, bind, call, return_.
  destruct (FilterPresubmits TestAllFilter _ _ _ _) as [[all [e|]] w1]; [done|].
  rewrite triggerFilters_map. simpl.
  destruct (FilterPresubmits (AggregateFilter _) _ _ _ _) as [[trig [e|]] w2];
    [done|].
  rewrite names_fold, commands_fold. simpl.
  do 2 f_equal. f_equal; [f_equal|]; set_solver.
Qed.


Lemma elem_of_commands (opt : bool) (l : list Presubmit) (c : string) :
  c ∈ commands opt l <->
  exists p, p ∈ l /\ Optional p = opt /\ RerunCommand p = c.
Proof.
  unfold commands. rewrite elem_of_list_to_set, list_elem_of_fmap.
  split.
  - intros (p & -> & Hp). apply list_elem_of_In, filter_In in Hp as [Hin Ho].
    exists p. rewrite list_elem_of_In. repeat split; [done|].
    by destruct (Optional p), opt.
  - intros (p & Hin & <- & <-). exists p. split; [done|].
    apply list_elem_of_In, filter_In. rewrite <- list_elem_of_In.
    split; [done|]. by destruct (Optional p).
Qed.

Lemma triggerFilters_any (presubmits : list Presubmit) p :
  AggregateFilter (map (fun ps => CommandFilter (RerunCommand ps)) presubmits) p =
  let b := existsb (fun q => TriggerMatches p (RerunCommand q)) presubmits in
  (b, b, b).
Proof.
  induction presubmits as [|q qs IH]; simpl; [done|].
  destruct (TriggerMatches p (RerunCommand q)); [done|]. exact IH.
Qed.



End Summary.

End Properties.

(** * Further properties *)

(** ** The four patterns *)

Section Lines.

Implicit Types (prev : option ascii) (s text : string).

(** The four patterns are anchored to a line.  [RetestRe],
    [RetestRequiredRe] and [OkToTestRe] match a text exactly when their
    command is alone on one of its lines, blanks apart; [TestAllRe] matches
    it exactly when one of its lines starts with "/test all", then an
    optional comma, and then ends or goes on with a blank. *)
Theorem patterns_anchored text :
  (MatchString RetestRe text = true <-> alone_on_line "/retest" text)
  /\ (MatchString RetestRequiredRe text = true <->
      alone_on_line "/retest-required" text)
  /\ (MatchString OkToTestRe text = true <-> alone_on_line "/ok-to-test" text)
  /\ (MatchString TestAllRe text = true <-> heads_line "/test all" text).
Proof.
  repeat split;
    first [ apply (MatchString_command _ text)
          | apply (MatchString_TestAllRe text) ].
Qed.

Lemma append_cons a s t : String a s +:+ t = String a (s +:+ t).
Proof. reflexivity. Qed.

Lemma append_nil t : "" +:+ t = t.
Proof. reflexivity. Qed.

(** In a text of one line, a start of line is the start of the text. *)
Lemma ahead_single_line p text prev s :
  ahead p text prev s -> single_line text = true ->
  (prev = p /\ s = text) \/ exists a, prev = Some a /\ a <> lf.
Proof.
  induction 1 as [|p a s prev s' _ IH]; [by left|].
  simpl. intros [Ha Hs]%andb_true_iff. right.
  destruct (IH Hs) as [[-> _]|?]; [|done].
  exists a. split; [done|]. by destruct (Ascii.eqb_spec a lf).
Qed.

Lemma line_start_single_line text prev s :
  ahead None text prev s -> single_line text = true -> line_start prev ->
  s = text.
Proof.
  intros Ha Hs Hstart.
  destruct (ahead_single_line _ _ _ _ Ha Hs) as [[_ ->]|(a & -> & Hlf)]; [done|].
  destruct Hstart as [?|[= ->]]; done.
Qed.

(** What follows a command alone on its line: nothing, or a blank. *)
Lemma after_command u rest :
  blank_inline u = true -> line_end rest ->
  u +:+ rest = "" \/ exists a t, u +:+ rest = String a t /\ isSpace a = true.
Proof.
  intros Hu [->|[t ->]]; destruct u as [|a u]; simpl in *; eauto.
  - right. exists a, (u +:+ ""). split; [done|].
    by apply andb_true_iff in Hu as [[? _]%andb_true_iff _].
  - right. exists a, (u +:+ String lf t). split; [done|].
    by apply andb_true_iff in Hu as [[? _]%andb_true_iff _].
Qed.

Lemma alone_single_line c text :
  single_line text = true -> alone_on_line c text ->
  exists tail, text = c +:+ tail /\
    (tail = "" \/ exists a t, tail = String a t /\ isSpace a = true).
Proof.
  intros Hs (prev & u & rest & Ha & Hstart & Hu & Hend).
  apply (line_start_single_line _ _ _ Ha Hs) in Hstart as <-.
  exists (u +:+ rest). split; [done|]. by apply after_command.
Qed.

Lemma heads_single_line c text :
  single_line text = true -> heads_line c text ->
  exists tail, text = c +:+ tail.
Proof.
  intros Hs (prev & comma & rest & Ha & Hstart & _).
  apply (line_start_single_line _ _ _ Ha Hs) in Hstart as <-. eauto.
Qed.

Lemma patterns_same text re1 re2 :
  single_line text = true ->
  re1 ∈ [RetestRe; RetestRequiredRe; OkToTestRe; TestAllRe] ->
  re2 ∈ [RetestRe; RetestRequiredRe; OkToTestRe; TestAllRe] ->
  MatchString re1 text = true -> MatchString re2 text = true ->
  re1 = re2.
Proof.
  intros Hs H1 H2.
  assert (forall re,
    re ∈ [RetestRe; RetestRequiredRe; OkToTestRe; TestAllRe] ->
    MatchString re text = true ->
    (re = RetestRe /\ exists tail, text = "/retest" +:+ tail /\
       (tail = "" \/ exists a t, tail = String a t /\ isSpace a = true))
    \/ (re = RetestRequiredRe /\ exists tail, text = "/retest-required" +:+ tail)
    \/ (re = OkToTestRe /\ exists tail, text = "/ok-to-test" +:+ tail)
    \/ (re = TestAllRe /\ exists tail, text = "/test all" +:+ tail)) as Hshape.
  { intros re Hre Hm.
    repeat (apply elem_of_cons in Hre as [->|Hre]); [| | | |by apply elem_of_nil in Hre].
    - left. split; [done|].
      apply MatchString_command in Hm. by apply alone_single_line.
    - right; left. split; [done|].
      apply (MatchString_command "/retest-required") in Hm.
      destruct (alone_single_line _ _ Hs Hm) as (tail & ? & _). eauto.
    - right; right; left. split; [done|].
      apply (MatchString_command "/ok-to-test") in Hm.
      destruct (alone_single_line _ _ Hs Hm) as (tail & ? & _). eauto.
    - right; right; right. split; [done|].
      apply MatchString_TestAllRe in Hm. by apply (heads_single_line "/test all"). }
  intros Hm1 Hm2.
  destruct (Hshape re1 H1 Hm1)
    as [(-> & t1 & E1 & T1)|[(-> & t1 & E1)|[(-> & t1 & E1)|(-> & t1 & E1)]]];
  destruct (Hshape re2 H2 Hm2)
    as [(-> & t2 & E2 & T2)|[(-> & t2 & E2)|[(-> & t2 & E2)|(-> & t2 & E2)]]];
  try reflexivity; exfalso; rewrite E1 in E2;
  rewrite ?append_cons, ?append_nil in E2; try discriminate E2.
  - injection E2 as E2. destruct T1 as [->|(a & t & -> & Ha)]; [done|].
    injection E2 as -> _. discriminate Ha.
  - injection E2 as E2. destruct T2 as [->|(a & t & -> & Ha)]; [done|].
    injection E2 as <- _. discriminate Ha.
Qed.

(** A text of one line is matched by at most one of the four patterns: a
    comment that is one command never selects the filter of another one
    (so "/retest-required" does not select the retest filter). *)
Theorem patterns_exclusive text re1 re2 :
  single_line text = true ->
  re1 ∈ [RetestRe; RetestRequiredRe; OkToTestRe; TestAllRe] ->
  re2 ∈ [RetestRe; RetestRequiredRe; OkToTestRe; TestAllRe] ->
  re1 <> re2 ->
  MatchString re1 text = true -> MatchString re2 text = false.
Proof.
  intros Hs H1 H2 Hne Hm1.
  destruct (MatchString re2 text) eqn:Hm2; [|done].
  destruct Hne. by apply (patterns_same text).
Qed.

End Lines.

Section Further.

Context {config : PresubmitConfig}.

Implicit Types (p : Presubmit) (filters : list Filter) (body : string)
  (changes : ChangedFilesProvider) (branch : string) (w : World).

(** ** Aggregates of filters *)

Lemma AggregateFilter_app l1 l2 p :
  AggregateFilter (l1 ++ l2) p =
  if matches (AggregateFilter l1 p) then AggregateFilter l1 p
  else AggregateFilter l2 p.
Proof.
  induction l1 as [|f l1 IH]; simpl; [done|].
  destruct (f p) as [[[] fo] d]; [done|]. exact IH.
Qed.

Lemma AggregateFilter_unmatched filters p :
  matches (AggregateFilter filters p) = false ->
  AggregateFilter filters p = (false, false, false).
Proof.
  induction filters as [|f l IH]; simpl; [done|].
  destruct (f p) as [[[] fo] d]; [done|]. exact IH.
Qed.

Lemma AggregateFilter_any filters p :
  matches (AggregateFilter filters p) = existsb (fun f => matches (f p)) filters.
Proof.
  induction filters as [|f l IH]; simpl; [done|].
  unfold matches at 2. destruct (f p) as [[[] fo] d]; [done|]. exact IH.
Qed.

(** An aggregate is a filter like another: the aggregate of two lists, one
    after the other, is the aggregate of their two aggregates, and the
    aggregate of an aggregate is itself.  It matches when one of its
    filters does, and when it does not match its answer is
    (false, false, false), whatever the answers of its filters: a filter
    and its aggregate differ where the filter does not match. *)
Theorem AggregateFilter_nested (l1 l2 : list Filter) p :
  AggregateFilter (l1 ++ l2) p =
    AggregateFilter [AggregateFilter l1; AggregateFilter l2] p
  /\ AggregateFilter [AggregateFilter l1] p = AggregateFilter l1 p
  /\ matches (AggregateFilter l1 p) = existsb (fun f => matches (f p)) l1
  /\ (matches (AggregateFilter l1 p) = false ->
      AggregateFilter l1 p = (false, false, false)).
Proof.
  split; [|split; [|split]].
  - rewrite AggregateFilter_app. simpl.
    destruct (matches (AggregateFilter l1 p)) eqn:M1.
    + unfold matches in M1. destruct (AggregateFilter l1 p) as [[m fo] d].
      simpl in M1. by subst m.
    + rewrite (AggregateFilter_unmatched l1 p M1).
      destruct (matches (AggregateFilter l2 p)) eqn:M2.
      * unfold matches in M2. destruct (AggregateFilter l2 p) as [[m fo] d].
        simpl in M2. by subst m.
      * by rewrite (AggregateFilter_unmatched l2 p M2).
  - simpl. destruct (matches (AggregateFilter l1 p)) eqn:M1.
    + unfold matches in M1. destruct (AggregateFilter l1 p) as [[m fo] d].
      simpl in M1. by subst m.
    + by rewrite (AggregateFilter_unmatched l1 p M1).
  - apply AggregateFilter_any.
  - apply AggregateFilter_unmatched.
Qed.

(** ** The evaluator *)

Lemma rangePresubmits_agree (f g : Filter) changes branch
    (presubmits : list Presubmit) l w :
  Forall (fun p => matches (f p) = matches (g p) /\
                   (matches (f p) = true -> f p = g p)) presubmits ->
  rangePresubmits f changes branch presubmits l w =
  rangePresubmits g changes branch presubmits l w.
Proof.
  intros Hall. revert l.
  induction Hall as [|p ps [Hm Heq] _ IH]; intros l; simpl; [done|].
  unfold matches in *.
  destruct (f p) as [[[] fo] d]; simpl in *.
  - rewrite <- (Heq eq_refl). simpl.
    destruct (ShouldRun p branch changes fo d) as [[] [e|]]; simpl; auto.
  - destruct (g p) as [[mg fog] dg]; simpl in *. subst mg. simpl. apply IH.
Qed.

(** [FilterPresubmits] looks at the [forced] and [defaultBehavior] of a
    filter only where the filter matches: two filters that match the same
    presubmits of the list, with the same answer, give the same result,
    the same error and the same log.  So a filter may be replaced by its
    aggregate. *)
Theorem FilterPresubmits_agree (f g : Filter) changes branch
    (presubmits : list Presubmit) w :
  ((forall p, p ∈ presubmits ->
      matches (f p) = matches (g p) /\ (matches (f p) = true -> f p = g p)) ->
   FilterPresubmits f changes branch presubmits w =
   FilterPresubmits g changes branch presubmits w)
  /\ FilterPresubmits (AggregateFilter [f]) changes branch presubmits w =
     FilterPresubmits f changes branch presubmits w.
Proof.
  assert (forall f g : Filter,
    (forall p, p ∈ presubmits ->
       matches (f p) = matches (g p) /\ (matches (f p) = true -> f p = g p)) ->
    FilterPresubmits f changes branch presubmits w =
    FilterPresubmits g changes branch presubmits w) as Hext.
  { intros f' g' Hfg. unfold FilterPresubmits, func, mbind, go_bind, bind.
    rewrite (rangePresubmits_agree f' g'); [done|].
    by apply Forall_forall. }
  split; [apply Hext|].
  apply Hext. intros p _. simpl. unfold matches.
  by destruct (f p) as [[[] fo] d].
Qed.

Lemma quiet_app (filter : Filter) changes branch (l1 l2 : list Presubmit) :
  Forall (fun p => fails filter changes branch p = None) l1 ->
  Forall (fun p => fails filter changes branch p = None) l2 ->
  Forall (fun p => fails filter changes branch p = None) (l1 ++ l2).
Proof. intros. by apply Forall_app. Qed.

(** [FilterPresubmits] on a list in two parts: the error of the first part
    if it has one, whatever the second part is; otherwise the error of the
    second part; otherwise the presubmits of the first part followed by
    those of the second. *)
Theorem FilterPresubmits_app (filter : Filter) changes branch
    (l1 l2 : list Presubmit) w :
  let r1 := (FilterPresubmits filter changes branch l1 w).1 in
  let r2 := (FilterPresubmits filter changes branch l2 w).1 in
  (FilterPresubmits filter changes branch (l1 ++ l2) w).1 =
  match r1.2, r2.2 with
  | Some e, _ => ([], Some e)
  | None, Some e => ([], Some e)
  | None, None => (r1.1 ++ r2.1, None)
  end.
Proof.
  simpl.
  destruct (first_failure filter changes branch l1)
    as [Hq1|(pre & p & post & e & -> & Hpre & Hp)].
  - destruct (first_failure filter changes branch l2)
      as [Hq2|(pre & p & post & e & -> & Hpre & Hp)].
    + rewrite !FilterPresubmits_quiet by (try apply quiet_app; done). simpl.
      by rewrite List.filter_app.
    + rewrite (FilterPresubmits_quiet _ _ _ l1) by done.
      rewrite (FilterPresubmits_failure _ _ _ pre p post e) by done.
      rewrite app_assoc.
      rewrite (FilterPresubmits_failure _ _ _ (l1 ++ pre) p post e)
        by (try apply quiet_app; done).
      done.
  - rewrite <- app_assoc. simpl.
    rewrite (FilterPresubmits_failure _ _ _ pre p (post ++ l2) e) by done.
    by rewrite (FilterPresubmits_failure _ _ _ pre p post e).
Qed.

(** [FilterPresubmits] does not fail where the filter does not match: with
    [TestAllFilter] it succeeds exactly when the eligibility rule, asked
    without force and with the default no, fails on no presubmit that can
    run without an explicit trigger; and no presubmit that needs an
    explicit trigger is ever in the result. *)
Theorem FilterPresubmits_TestAllFilter changes branch
    (presubmits : list Presubmit) w :
  ((FilterPresubmits TestAllFilter changes branch presubmits w).1.2 = None <->
   forall p, p ∈ presubmits -> NeedsExplicitTrigger p = false ->
             (ShouldRun p branch changes false false).2 = None)
  /\ Forall (fun p => NeedsExplicitTrigger p = false)
       (FilterPresubmits TestAllFilter changes branch presubmits w).1.1.
Proof.
  destruct (first_failure TestAllFilter changes branch presubmits)
    as [Hq|(pre & p & post & e & -> & Hpre & Hp)].
  - rewrite FilterPresubmits_quiet by done. simpl. split.
    + split; [|done]. intros _ p Hin Hexp.
      rewrite Forall_forall in Hq. specialize (Hq p Hin). simpl in Hq.
      unfold fails, asked, TestAllFilter, matches, forced, defaultBehavior in Hq.
      simpl in Hq. by rewrite Hexp in Hq.
    + apply Forall_forall. intros p [_ Ht]%list_elem_of_In%filter_In.
      unfold triggers, TestAllFilter, matches in Ht. simpl in Ht.
      by destruct (NeedsExplicitTrigger p).
  - rewrite (FilterPresubmits_failure _ _ _ pre p post e) by done. simpl.
    split; [|done]. split; [done|]. intros Hall. exfalso.
    unfold fails, asked, TestAllFilter, matches, forced, defaultBehavior in Hp.
    simpl in Hp. destruct (NeedsExplicitTrigger p) eqn:Hexp; [done|].
    rewrite (Hall p) in Hp; [done| |done].
    apply elem_of_app. right. apply list_elem_of_here.
Qed.

(** ** Retest and retest-required *)

Lemma RetestRequiredFilter_fails (failed all : gset string) changes branch p :
  fails (RetestRequiredFilter failed all) changes branch p =
  if Optional p then None else fails (RetestFilter failed all) changes branch p.
Proof.
  unfold fails, asked, RetestRequiredFilter. by destruct (Optional p).
Qed.

Lemma RetestRequiredFilter_triggers (failed all : gset string) changes branch p :
  triggers (RetestRequiredFilter failed all) changes branch p =
  triggers (RetestFilter failed all) changes branch p && negb (Optional p).
Proof.
  unfold triggers, asked, RetestRequiredFilter.
  destruct (Optional p); simpl; [|by rewrite andb_true_r].
  by rewrite andb_false_r.
Qed.

(** The retest-required filter triggers the required presubmits that the
    retest filter triggers, and no other: when [FilterPresubmits] succeeds
    with [RetestFilter], it succeeds with [RetestRequiredFilter] on the
    same input, and returns the presubmits of the first result that are
    not optional. *)
Theorem RetestRequiredFilter_restricts (failed all : gset string) changes branch
    (presubmits : list Presubmit) w result w' :
  FilterPresubmits (RetestFilter failed all) changes branch presubmits w =
    ((result, None), w') ->
  (FilterPresubmits (RetestRequiredFilter failed all) changes branch presubmits w).1
  = (List.filter (fun p => negb (Optional p)) result, None).
Proof.
  intros (Hq & -> & _)%FilterPresubmits_selection.
  rewrite FilterPresubmits_quiet.
  - simpl. f_equal. clear Hq.
    induction presubmits as [|p ps IH]; simpl; [done|].
    rewrite RetestRequiredFilter_triggers, IH.
    destruct (triggers (RetestFilter failed all) changes branch p); simpl; [|done].
    by destruct (Optional p).
  - eapply Forall_impl; [exact Hq|]. intros p Hp. simpl in *.
    rewrite RetestRequiredFilter_fails. by destruct (Optional p).
Qed.

(** ** The chain builder *)

(** What [PresubmitFilter] returns, in all cases. *)
Lemma PresubmitFilter_cases (honorOkToTest : bool) (getter : contextGetter) body w :
  (PresubmitFilter honorOkToTest getter body w).1 =
  match (if MatchString RetestRe body
         then (retest_call getter body w).2 else None) with
  | Some e => (None, Some e)
  | None =>
      match (if MatchString RetestRequiredRe body
             then (retest_required_call getter body w).2 else None) with
      | Some e => (None, Some e)
      | None =>
          (Some (AggregateFilter
                   (chain honorOkToTest body (retest_call getter body w).1
                      (retest_required_call getter body w).1)), None)
      end
  end.
Proof.
  unfold PresubmitFilter, chain, retest_required_call, after_retest, retest_call.
  unfold func, mbind, go_bind, bind, call, Info, Debug, pure, return_.
  generalize (MatchString RetestRe body) as b1.
  generalize (MatchString RetestRequiredRe body) as b2.
  generalize ((honorOkToTest && MatchString OkToTestRe body)
              || MatchString TestAllRe body) as b3.
  intros b3 b2 [].
  - destruct (getter (emit (info "Using retest filter.") w))
      as [[[f1 a1] [e1|]] w1]; simpl; [done|].
    destruct b2.
    + destruct (getter (emit (info "Using retest-required filter") w1))
        as [[[f2 a2] [e2|]] w2]; simpl; [done|]. by destruct b3.
    + by destruct b3.
  - destruct b2.
    + destruct (getter (emit (info "Using retest-required filter") w))
        as [[[f2 a2] [e2|]] w2]; simpl; [done|]. by destruct b3.
    + by destruct b3.
Qed.

(** [PresubmitFilter] fails exactly when a call of the resolver that it
    makes fails, and then with the error of the resolver as it is: the call
    for the retest filter, when [RetestRe] matches, or else the call for
    the retest-required filter, when [RetestRequiredRe] matches.  It
    returns no filter exactly when it returns an error. *)
Theorem PresubmitFilter_error (honorOkToTest : bool) (getter : contextGetter)
    body w (e : error) :
  ((PresubmitFilter honorOkToTest getter body w).1.2 = Some e <->
     (MatchString RetestRe body = true /\ (retest_call getter body w).2 = Some e)
     \/ ((MatchString RetestRe body = true -> (retest_call getter body w).2 = None)
         /\ MatchString RetestRequiredRe body = true
         /\ (retest_required_call getter body w).2 = Some e))
  /\ ((PresubmitFilter honorOkToTest getter body w).1.1 = None <->
      is_Some (PresubmitFilter honorOkToTest getter body w).1.2).
Proof.
  rewrite PresubmitFilter_cases. unfold is_Some.
  destruct (MatchString RetestRe body);
    [destruct (retest_call getter body w).2 as [e1|]|];
    (destruct (MatchString RetestRequiredRe body);
       [destruct (retest_required_call getter body w).2 as [e2|]|]);
    simpl; naive_solver.
Qed.

(** A filter that matches only where the filter before it does is never
    reached. *)
Lemma AggregateFilter_shadow (l1 : list Filter) (f g : Filter) (l2 : list Filter) p :
  (matches (f p) = false -> matches (g p) = false) ->
  AggregateFilter (l1 ++ f :: g :: l2) p = AggregateFilter (l1 ++ f :: l2) p.
Proof.
  intros Hfg. rewrite !AggregateFilter_app.
  destruct (matches (AggregateFilter l1 p)); [done|].
  cbn [AggregateFilter]. unfold matches in Hfg.
  destruct (f p) as [[[] fo] d]; [done|].
  destruct (g p) as [[mg fog] dg]. simpl in Hfg. by rewrite (Hfg eq_refl).
Qed.

Lemma RetestRequiredFilter_unmatched (failed all : gset string) p :
  matches (RetestFilter failed all p) = false ->
  matches (RetestRequiredFilter failed all p) = false.
Proof. unfold RetestRequiredFilter. by destruct (Optional p). Qed.

Lemma PresubmitFilter_answered (honorOkToTest : bool) (getter : contextGetter)
    body w (failed all : gset string) :
  answers getter failed all ->
  (PresubmitFilter honorOkToTest getter body w).1 =
  (Some (AggregateFilter (chain honorOkToTest body (failed, all) (failed, all))),
   None).
Proof.
  intros Hg. rewrite PresubmitFilter_cases.
  unfold retest_call, retest_required_call. rewrite !Hg. simpl.
  by destruct (MatchString RetestRe body), (MatchString RetestRequiredRe body).
Qed.

(** With the retest filter in the chain, the retest-required filter that
    follows it changes nothing: when the resolver gives both the same
    sets, the filter that [PresubmitFilter] returns for a body that
    [RetestRe] matches answers, on every presubmit, as the aggregate of
    the command filter, the retest filter and the test-all filter if it
    is selected. *)
Theorem retest_required_shadowed (honorOkToTest : bool) (getter : contextGetter)
    body w (failed all : gset string) :
  answers getter failed all ->
  MatchString RetestRe body = true ->
  exists filter,
    (PresubmitFilter honorOkToTest getter body w).1 = (Some filter, None)
    /\ forall p,
         filter p =
         AggregateFilter
           ([CommandFilter body; RetestFilter failed all]
            ++ (if selects_test_all honorOkToTest body then [TestAllFilter] else []))
           p.
Proof.
  intros Hg Hre. eexists. split; [by apply PresubmitFilter_answered|].
  intros p. unfold chain, selects_test_all. rewrite Hre.
  destruct (MatchString RetestRequiredRe body); [|done].
  apply (AggregateFilter_shadow [CommandFilter body] _ _ _ p).
  apply RetestRequiredFilter_unmatched.
Qed.

(** A retest does not run again what has run and has not failed: when the
    test-all filter is not selected, the filter that [PresubmitFilter]
    returns does not match a presubmit whose trigger does not match the
    body and whose context is among all the contexts and not among the
    failed ones. *)
Theorem retest_skips_passed (honorOkToTest : bool) (getter : contextGetter)
    body w (failed all : gset string) p :
  answers getter failed all ->
  selects_test_all honorOkToTest body = false ->
  TriggerMatches p body = false ->
  Context p ∈ all -> Context p ∉ failed ->
  exists filter,
    (PresubmitFilter honorOkToTest getter body w).1 = (Some filter, None)
    /\ filter p = (false, false, false).
Proof.
  intros Hg Hta Htm Hall Hfailed.
  eexists. split; [by apply PresubmitFilter_answered|].
  unfold chain. fold (selects_test_all honorOkToTest body). rewrite Hta.
  assert (RetestFilter failed all p = (false, false, false)) as Hr.
  { unfold RetestFilter, Has.
    rewrite (bool_decide_eq_false_2 _ Hfailed), (bool_decide_eq_true_2 _ Hall).
    simpl. by rewrite andb_false_r. }
  assert (RetestRequiredFilter failed all p = (false, false, false)) as Hrr.
  { unfold RetestRequiredFilter. rewrite Hr. by destruct (Optional p). }
  destruct (MatchString RetestRe body), (MatchString RetestRequiredRe body);
    cbn [app AggregateFilter fst snd]; unfold CommandFilter;
    rewrite Htm, ?Hr, ?Hrr; done.
Qed.

(** A comment of one line that is "/ok-to-test" selects the test-all
    filter when the caller honours it, and nothing but the command filter
    when it does not; the resolver is not asked, so the construction
    cannot fail. *)
Theorem ok_to_test_honoured (honorOkToTest : bool) (getter : contextGetter) body w :
  single_line body = true ->
  MatchString OkToTestRe body = true ->
  (PresubmitFilter honorOkToTest getter body w).1 =
  (Some (AggregateFilter
           (CommandFilter body :: if honorOkToTest then [TestAllFilter] else [])),
   None).
Proof.
  intros Hs Hok.
  assert (forall re,
    re ∈ [RetestRe; RetestRequiredRe; OkToTestRe; TestAllRe] ->
    re <> OkToTestRe -> MatchString re body = false) as Hother.
  { intros re Hin Hne. destruct (MatchString re body) eqn:Hm; [|done].
    destruct Hne. apply (patterns_same body); try done.
    do 2 apply list_elem_of_further. apply list_elem_of_here. }
  rewrite PresubmitFilter_cases. unfold chain.
  rewrite (Hother RetestRe), (Hother RetestRequiredRe), (Hother TestAllRe), Hok;
    try discriminate;
    try (repeat (first [apply list_elem_of_here | apply list_elem_of_further])).
  by destruct honorOkToTest.
Qed.

(** ** The summary builder *)

Lemma FilterPresubmits_fails_at (filter : Filter) changes branch
    (presubmits pre : list Presubmit) p (post : list Presubmit) (e : error) w :
  presubmits = pre ++ p :: post ->
  Forall (fun q => fails filter changes branch q = None) pre ->
  fails filter changes branch p = Some e ->
  FilterPresubmits filter changes branch presubmits w =
  (([], Some (Errorf_should_run (Name p) e)), w).
Proof. intros ->. apply FilterPresubmits_failure. Qed.

Lemma triggerFilters_fails changes branch (presubmits : list Presubmit) p :
  fails (AggregateFilter (map (fun ps => CommandFilter (RerunCommand ps)) presubmits))
    changes branch p =
  if existsb (fun q => TriggerMatches p (RerunCommand q)) presubmits
  then (ShouldRun p branch changes true true).2 else None.
Proof.
  unfold fails, asked. rewrite triggerFilters_any. simpl.
  by destruct (existsb _ presubmits).
Qed.

Lemma TestAllFilter_fails changes branch p :
  fails TestAllFilter changes branch p =
  if NeedsExplicitTrigger p then None
  else (ShouldRun p branch changes false false).2.
Proof. unfold fails, asked, TestAllFilter. simpl. by destruct (NeedsExplicitTrigger p). Qed.

(** When [AvailablePresubmits] returns an error, the three sets it returns
    are empty, and the error is the one [FilterPresubmits] builds for a
    presubmit of the input on which the eligibility rule failed: asked
    without force and with the default no for a presubmit that needs no
    explicit trigger, or asked with force and the default yes for a
    presubmit whose trigger matches a rerun command of the input. *)
Theorem AvailablePresubmits_error changes (org repo : string) branch
    (presubmits : list Presubmit) w (e : error) :
  (AvailablePresubmits changes org repo branch presubmits w).1.2 = Some e ->
  (AvailablePresubmits changes org repo branch presubmits w).1 = (∅, ∅, ∅, Some e)
  /\ exists p e',
       p ∈ presubmits
       /\ e = wrapError (Name p +:+ ": should run: " +:+ Error e') e'
       /\ ((NeedsExplicitTrigger p = false /\
            (ShouldRun p branch changes false false).2 = Some e')
           \/ ((exists q, q ∈ presubmits /\
                          TriggerMatches p (RerunCommand q) = true) /\
               (ShouldRun p branch changes true true).2 = Some e')).
Proof.
  rewrite AvailablePresubmits_passes.
  destruct (first_failure TestAllFilter changes branch presubmits)
    as [Hq1|(pre & p & post & e' & Heq & Hpre & Hp)].
  - rewrite (FilterPresubmits_quiet _ _ _ presubmits w) by done. cbv zeta.
    set (triggerFilters := map _ presubmits).
    destruct (first_failure (AggregateFilter triggerFilters) changes branch presubmits)
      as [Hq2|(pre & p & post & e' & Heq & Hpre & Hp)].
    + by rewrite (FilterPresubmits_quiet _ _ _ presubmits) by done.
    + rewrite (FilterPresubmits_fails_at _ _ _ _ pre p post e') by done.
      simpl. intros [= <-]. split; [done|]. exists p, e'.
      assert (p ∈ presubmits) as Hin
        by (rewrite Heq; apply elem_of_app; right; apply list_elem_of_here).
      split; [done|]. split; [done|]. right.
      subst triggerFilters. rewrite triggerFilters_fails in Hp.
      destruct (existsb _ presubmits) eqn:Hex; [|done].
      split; [|done].
      apply existsb_exists in Hex as (q & Hq & Hm). exists q.
      by rewrite list_elem_of_In.
  - rewrite (FilterPresubmits_fails_at _ _ _ _ pre p post e') by done.
    simpl. intros [= <-]. split; [done|]. exists p, e'.
    split; [rewrite Heq; apply elem_of_app; right; apply list_elem_of_here|].
    split; [done|]. left.
    rewrite TestAllFilter_fails in Hp.
    by destruct (NeedsExplicitTrigger p).
Qed.

(** What the three sets of [AvailablePresubmits] hold when it succeeds.
    The names are those of the presubmits that need no explicit trigger
    and that the eligibility rule accepts without force.  The commands are
    the rerun commands of the presubmits whose trigger matches the rerun
    command of some presubmit of the input, its own or another one's, and
    that the rule accepts when forced: among the optional commands for an
    optional presubmit, among the required ones otherwise. *)
Theorem AvailablePresubmits_sets changes (org repo : string) branch
    (presubmits : list Presubmit) w (names optional required : gset string) w' :
  AvailablePresubmits changes org repo branch presubmits w =
    ((names, optional, required, None), w') ->
  (forall n, n ∈ names <->
     exists p, p ∈ presubmits /\ Name p = n /\ NeedsExplicitTrigger p = false /\
               ShouldRun p branch changes false false = (true, None))
  /\ (forall (c : string) (opt : bool),
        c ∈ (if opt then optional else required) <->
        exists p, p ∈ presubmits /\ RerunCommand p = c /\ Optional p = opt /\
                  (exists q, q ∈ presubmits /\
                             TriggerMatches p (RerunCommand q) = true) /\
                  ShouldRun p branch changes true true = (true, None)).
Proof.
  rewrite AvailablePresubmits_passes.
  destruct (FilterPresubmits TestAllFilter changes branch presubmits w)
    as [[all [e1|]] w1] eqn:Hall; [done|]. cbv zeta.
  set (triggerFilters := map _ presubmits).
  destruct (FilterPresubmits (AggregateFilter triggerFilters) changes branch
              presubmits w1) as [[trig [e2|]] w2] eqn:Htrig; [done|].
  intros [= <- <- <- <-].
  apply FilterPresubmits_selection in Hall as (_ & _ & Hall).
  apply FilterPresubmits_selection in Htrig as (_ & _ & Htrig).
  split.
  - intros n. rewrite elem_of_list_to_set, list_elem_of_fmap. split.
    + intros (p & -> & (Hin & Hm & Hrun)%Hall). exists p.
      unfold TestAllFilter, matches, forced, defaultBehavior in *. simpl in *.
      by destruct (NeedsExplicitTrigger p).
    + intros (p & Hin & <- & Hexp & Hrun). exists p. split; [done|].
      apply Hall. unfold TestAllFilter, matches, forced, defaultBehavior. simpl.
      by rewrite Hexp.
  - intros c opt.
    assert (c ∈ (if opt then commands true trig else commands false trig) <->
            c ∈ commands opt trig) as -> by (by destruct opt).
    rewrite elem_of_commands. split.
    + intros (p & (Hin & Hm & Hrun)%Htrig & Ho & Hc). exists p.
      subst triggerFilters. rewrite triggerFilters_any in Hm, Hrun.
      unfold matches, forced, defaultBehavior in *. simpl in *.
      rewrite Hm in Hrun. repeat split; try done.
      apply existsb_exists in Hm as (q & Hq & Hm). exists q.
      by rewrite list_elem_of_In.
    + intros (p & Hin & Hc & Ho & (q & Hq & Hm) & Hrun). exists p.
      split; [|done]. apply Htrig. subst triggerFilters.
      rewrite triggerFilters_any.
      assert (existsb (fun q => TriggerMatches p (RerunCommand q)) presubmits = true)
        as -> by (apply existsb_exists; exists q; by rewrite <- list_elem_of_In).
      done.
Qed.

End Further.

(** ** The evaluator and the memory *)

Section InMemory.

Context {config : PresubmitConfig}.

Variables (callee : store.Filter) (rule : store.Rule) (filter : Filter)
  (changes : ChangedFilesProvider) (branch : string) (s : store.Slice).

(** The filter and the eligibility rule are held fixed, and do not write
    the presubmits of the slice. *)
Hypothesis callee_fixed : forall p, store.fixed (callee p) (filter p).
Hypothesis callee_keeps : forall p, store.keeps s (callee p).
Hypothesis rule_fixed :
  forall p forced defaults,
    store.fixed (rule p branch changes forced defaults)
      (ShouldRun p branch changes forced defaults).
Hypothesis rule_keeps :
  forall p forced defaults, store.keeps s (rule p branch changes forced defaults).

Lemma rangePresubmits_any_world (presubmits : list Presubmit) l w w' :
  (rangePresubmits filter changes branch presubmits l w).1 =
  (rangePresubmits filter changes branch presubmits l w').1.
Proof.
  revert l. induction presubmits as [|p ps IH]; intros l; simpl; [done|].
  destruct (filter p) as [[[] fo] d]; simpl; [|apply IH].
  destruct (ShouldRun p branch changes fo d) as [[] [e|]]; simpl; auto.
Qed.

(** The loop on the slice is the loop on its contents, and it leaves them
    as they were. *)
Lemma rangePresubmits_in_memory n i l m w :
  i + n <= store.len s ->
  let r := store.rangePresubmits callee rule changes branch s n i l m in
  r.1 = (rangePresubmits filter changes branch
           (map (store.arrays m (store.base s)) (seq i n)) l w).1
  /\ forall j, j < store.len s ->
       store.arrays r.2 (store.base s) j = store.arrays m (store.base s) j.
Proof.
  revert i l m. induction n as [|n IH]; intros i l m Hle; simpl; [done|].
  set (p := store.arrays m (store.base s) i).
  pose proof (callee_fixed p m) as Hanswer.
  pose proof (callee_keeps p m) as Hkept.
  destruct (callee p m) as [[[mt fo] d] m1]. simpl in Hanswer, Hkept.
  rewrite <- Hanswer.
  assert (forall m2,
    (forall j, j < store.len s ->
       store.arrays m2 (store.base s) j = store.arrays m (store.base s) j) ->
    map (store.arrays m (store.base s)) (seq (S i) n) =
    map (store.arrays m2 (store.base s)) (seq (S i) n)) as Hsame.
  { intros m2 H2. apply map_ext_in. intros j [_ Hj]%in_seq.
    symmetry. apply H2. lia. }
  destruct mt; simpl.
  - pose proof (rule_fixed p fo d m1) as Hrun.
    pose proof (rule_keeps p fo d m1) as Hkept2.
    destruct (rule p branch changes fo d m1) as [[run err] m2].
    simpl in Hrun, Hkept2. rewrite <- Hrun.
    assert (forall j, j < store.len s ->
      store.arrays m2 (store.base s) j = store.arrays m (store.base s) j) as H2
      by (intros j Hj; rewrite Hkept2, Hkept; done).
    destruct err as [e|]; simpl; [done|].
    destruct run; simpl; rewrite (Hsame m2 H2);
      match goal with
      | |- context [store.rangePresubmits _ _ _ _ _ _ _ ?l' m2] =>
          destruct (IH (S i) l' m2) as [Hr Hk]; [lia|]
      end;
      cbv zeta in Hr; rewrite Hr; (split; [done|]);
      intros j Hj; rewrite Hk, H2; done.
  - rewrite (Hsame m1 Hkept).
    match goal with
    | |- context [store.rangePresubmits _ _ _ _ _ _ _ ?l' m1] =>
        destruct (IH (S i) l' m1) as [Hr Hk]; [lia|]
    end.
    cbv zeta in Hr. rewrite Hr. split; [done|].
    intros j Hj. rewrite Hk, Hkept; done.
Qed.

Lemma FilterPresubmits_in_memory m :
  (store.FilterPresubmits callee rule changes branch s m).1 =
  (FilterPresubmits filter changes branch (store.contents m s) (store.world m)).1
  /\ store.contents (store.FilterPresubmits callee rule changes branch s m).2 s
     = store.contents m s.
Proof.
  unfold store.FilterPresubmits, store.contents.
  destruct (rangePresubmits_in_memory (store.len s) 0 entered m (store.world m))
    as [Hres Hkept]; [done|].
  destruct (store.rangePresubmits callee rule changes branch s (store.len s) 0
              entered m) as [r m']. simpl in Hres, Hkept.
  unfold FilterPresubmits, func, mbind, go_bind, bind, Debug, return_.
  destruct (rangePresubmits filter changes branch _ entered (store.world m))
    as [r0 w0]. simpl in Hres. subst r0.
  assert (map (store.arrays m' (store.base s)) (seq 0 (store.len s)) =
          map (store.arrays m (store.base s)) (seq 0 (store.len s))) as Hsame.
  { apply map_ext_in. intros j [_ Hj]%in_seq. apply Hkept. lia. }
  destruct r as [returned|l]; simpl; done.
Qed.

(** C9. With the filter and the eligibility rule held fixed, and neither
    writing the presubmits of the input, [FilterPresubmits] leaves the
    presubmits of the input as they were, and what it returns is a
    function of them: it is what the evaluator returns for the list of
    these presubmits, a second run, started where the first one ended,
    returns the same list and the same error, and so does a run from any
    memory that holds the same presubmits. *)
Theorem FilterPresubmits_deterministic (m : store.Memory) :
  let run := store.FilterPresubmits callee rule changes branch s in
  store.contents (run m).2 s = store.contents m s
  /\ (run m).1 =
     (FilterPresubmits filter changes branch (store.contents m s) (store.world m)).1
  /\ (run (run m).2).1 = (run m).1
  /\ (forall m', store.contents m' s = store.contents m s ->
                 (run m').1 = (run m).1).
Proof.
  assert (forall m',
    store.contents m' s = store.contents m s ->
    (store.FilterPresubmits callee rule changes branch s m').1 =
    (store.FilterPresubmits callee rule changes branch s m).1) as Hsame.
  { intros m' Heq.
    rewrite (proj1 (FilterPresubmits_in_memory m')),
            (proj1 (FilterPresubmits_in_memory m)), Heq.
    apply FilterPresubmits_world. }
  cbv zeta. split; [apply FilterPresubmits_in_memory|].
  split; [apply FilterPresubmits_in_memory|].
  split; [|exact Hsame].
  apply Hsame. apply FilterPresubmits_in_memory.
Qed.

End InMemory.

(** * The properties on the sample configuration *)

Import sample.

Lemma AggregateFilter_first_match_witness :
  Forall (fun g : Filter => matches (g e2e) = false) [RetestFilter ∅ ∅]
  /\ matches (CommandFilter "/test e2e" e2e) = true
  /\ AggregateFilter [RetestFilter ∅ ∅; CommandFilter "/test e2e"; TestAllFilter] e2e
     = CommandFilter "/test e2e" e2e.
Proof.
  assert (Forall (fun g : Filter => matches (g e2e) = false) [RetestFilter ∅ ∅])
    as Hpre by (repeat constructor).
  assert (matches (CommandFilter "/test e2e" e2e) = true) as Hhit
    by (vm_compute; reflexivity).
  split; [exact Hpre|]. split; [exact Hhit|].
  exact (proj1 (proj2 (AggregateFilter_first_match
           [RetestFilter ∅ ∅; CommandFilter "/test e2e"; TestAllFilter] e2e))
         [RetestFilter ∅ ∅] (CommandFilter "/test e2e") [TestAllFilter]
         eq_refl Hpre Hhit).
Defined.

Lemma RetestFilter_RetestRequiredFilter_witness :
  Optional flaky = true
  /\ RetestRequiredFilter {[ "ci/flaky" ]} {[ "ci/flaky" ]} flaky = (false, false, false)
  /\ Optional unit_ = false
  /\ RetestRequiredFilter {[ "ci/unit" ]} {[ "ci/unit"; "ci/lint" ]} unit_
     = RetestFilter {[ "ci/unit" ]} {[ "ci/unit"; "ci/lint" ]} unit_.
Proof.
  split; [reflexivity|]. split.
  - exact (proj1 (proj2 (proj2 (proj2
      (RetestFilter_RetestRequiredFilter {[ "ci/flaky" ]} {[ "ci/flaky" ]} flaky))))
      eq_refl).
  - split; [reflexivity|].
    exact (proj2 (proj2 (proj2 (proj2
      (RetestFilter_RetestRequiredFilter {[ "ci/unit" ]} {[ "ci/unit"; "ci/lint" ]}
         unit_)))) eq_refl).
Defined.

(** The answer of [CommandFilter] on a presubmit whose trigger does not
    match the command is not (false, false, false). *)
Lemma CommandFilter_no_match_default :
  TriggerMatches lint "/test unit" = false
  /\ CommandFilter "/test unit" lint = (false, false, true)
  /\ CommandFilter "/test unit" lint <> (false, false, false).
Proof.
  assert (CommandFilter "/test unit" lint = (false, false, true)) as Heq
    by (vm_compute; reflexivity).
  split; [vm_compute; reflexivity|]. split; [exact Heq|].
  rewrite Heq. discriminate.
Qed.

Lemma CommandFilter_by_trigger_witness :
  TriggerMatches unit_ "/test unit" = true
  /\ CommandFilter "/test unit" unit_ = (true, true, true)
  /\ TriggerMatches lint "/test unit" = false
  /\ CommandFilter "/test unit" lint = (false, false, true).
Proof.
  assert (TriggerMatches unit_ "/test unit" = true) as Hu by (vm_compute; reflexivity).
  assert (TriggerMatches lint "/test unit" = false) as Hl by (vm_compute; reflexivity).
  split; [exact Hu|].
  split; [exact (proj1 (CommandFilter_by_trigger "/test unit" unit_) Hu)|].
  split; [exact Hl|].
  exact (proj2 (CommandFilter_by_trigger "/test unit" lint) Hl).
Defined.

Lemma CommandFilter_components_witness :
  TriggerMatches e2e "/test all" = false
  /\ CommandFilter "/test all" e2e = (false, false, true).
Proof.
  assert (TriggerMatches e2e "/test all" = false) as He by (vm_compute; reflexivity).
  split; [exact He|].
  exact (proj2 (proj2 (proj2 (CommandFilter_components "/test all" e2e))) He).
Defined.

Lemma PresubmitFilter_chain_witness :
  let getter := resolver {[ "ci/unit" ]} {[ "ci/unit"; "ci/lint" ]} in
  (MatchString RetestRe "/retest" = true ->
   (retest_call getter "/retest" start).2 = None)
  /\ (MatchString RetestRequiredRe "/retest" = true ->
      (retest_required_call getter "/retest" start).2 = None)
  /\ (PresubmitFilter false getter "/retest" start).1 =
     (Some (AggregateFilter
              [CommandFilter "/retest";
               RetestFilter {[ "ci/unit" ]} {[ "ci/unit"; "ci/lint" ]}]), None).
Proof.
  intros getter.
  assert (MatchString RetestRe "/retest" = true ->
          (retest_call getter "/retest" start).2 = None) as H1
    by (intros _; reflexivity).
  assert (MatchString RetestRequiredRe "/retest" = true ->
          (retest_required_call getter "/retest" start).2 = None) as H2
    by (intros _; reflexivity).
  split; [exact H1|]. split; [exact H2|].
  exact (proj1 (PresubmitFilter_chain false getter "/retest" start H1 H2)).
Defined.

Lemma FilterPresubmits_error_witness :
  (exists p : Job, p ∈ two_broken /\ matches (TestAllFilter p) = true /\
     is_Some (ShouldRun p "main" no_changes (forced (TestAllFilter p))
                (defaultBehavior (TestAllFilter p))).2)
  /\ (exists (p : Job) (e : error),
        FilterPresubmits TestAllFilter no_changes "main" two_broken start =
        (([], Some (wrapError (Name p +:+ ": should run: " +:+ Error e) e)), start)).
Proof.
  assert (exists p : Job, p ∈ two_broken /\ matches (TestAllFilter p) = true /\
     is_Some (ShouldRun p "main" no_changes (forced (TestAllFilter p))
                (defaultBehavior (TestAllFilter p))).2) as Hex.
  { exists (failing core "timeout"). split.
    - do 2 apply list_elem_of_further. apply list_elem_of_here.
    - split; [reflexivity|]. eexists. reflexivity. }
  split; [exact Hex|].
  destruct (FilterPresubmits_error (config := jobs) TestAllFilter no_changes "main"
              two_broken start Hex)
    as (pre & p & post & e & _ & _ & _ & _ & Hrun & _).
  exists p, e. exact Hrun.
Defined.

(** The error names the first presubmit whose rule fails. *)
Example FilterPresubmits_two_broken :
  FilterPresubmits TestAllFilter no_changes "main" two_broken start =
  (([], Some (wrapError "lint: should run: no such branch"
                (errorString "no such branch"))), start).
Proof. vm_compute. reflexivity. Qed.

Lemma FilterPresubmits_success_witness :
  (exists w', FilterPresubmits TestAllFilter no_changes "main" three_jobs start =
              (([unit_; lint], None), w'))
  /\ [unit_; lint] = List.filter (triggers TestAllFilter no_changes "main") three_jobs
  /\ sublist [unit_; lint] three_jobs.
Proof.
  assert (FilterPresubmits TestAllFilter no_changes "main" three_jobs start =
          (([unit_; lint], None),
           (FilterPresubmits TestAllFilter no_changes "main" three_jobs start).2))
    as Hrun by (vm_compute; reflexivity).
  split; [eexists; exact Hrun|].
  destruct (FilterPresubmits_success (config := jobs) TestAllFilter no_changes "main"
              three_jobs start _ _ Hrun) as (Hres & Hsub & _).
  split; [exact Hres | exact Hsub].
Defined.

(** The counters of the entry logged for the three jobs: one of them is
    not matched, none is declined, two are triggered. *)
Example FilterPresubmits_three_jobs_counters :
  exists entry,
    logged (FilterPresubmits TestAllFilter no_changes "main" three_jobs start).2
    = [entry]
    /\ fields entry !! "total-count" = Some (Int 3)
    /\ fields entry !! "no-match-count" = Some (Int 1)
    /\ fields entry !! "should-not-run-count" = Some (Int 0)
    /\ fields entry !! "to-trigger-count" = Some (Int 2)
    /\ fields entry !! "to-trigger" = Some (Strings ["unit"; "lint"]).
Proof. eexists. split; [reflexivity|]. by vm_compute. Qed.



(** For a body with a line "/retest" and a line "/retest-required" the
    resolver is called twice, not once. *)
Lemma PresubmitFilter_resolves_twice :
  MatchString RetestRe retest_then_required = true
  /\ MatchString RetestRequiredRe retest_then_required = true
  /\ resolved start = 0
  /\ resolved (PresubmitFilter false (resolver ∅ ∅) retest_then_required start).2 = 2
  /\ ~ resolved (PresubmitFilter false (resolver ∅ ∅) retest_then_required start).2 <= 1.
Proof.
  assert (resolved (PresubmitFilter false (resolver ∅ ∅) retest_then_required start).2
          = 2) as Hcalls by (vm_compute; reflexivity).
  split; [vm_compute; reflexivity|]. split; [vm_compute; reflexivity|].
  split; [reflexivity|]. split; [exact Hcalls|].
  rewrite Hcalls. lia.
Qed.

Lemma PresubmitFilter_resolver_calls_witness :
  counted (resolver ∅ ∅)
  /\ MatchString RetestRe "/test all" = false
  /\ MatchString RetestRequiredRe "/test all" = false
  /\ resolved (PresubmitFilter false (resolver ∅ ∅) "/test all" start).2
     = resolved start
  /\ MatchString RetestRe retest_then_required = true
  /\ MatchString RetestRequiredRe retest_then_required = true
  /\ (retest_call (resolver ∅ ∅) retest_then_required start).2 = None
  /\ resolved (PresubmitFilter false (resolver ∅ ∅) retest_then_required start).2
     = resolved start + 2.
Proof.
  assert (counted (resolver ∅ ∅)) as Hc by (intros w; reflexivity).
  assert (MatchString RetestRe "/test all" = false) as H1 by (vm_compute; reflexivity).
  assert (MatchString RetestRequiredRe "/test all" = false) as H2
    by (vm_compute; reflexivity).
  assert (MatchString RetestRe retest_then_required = true) as H3
    by (vm_compute; reflexivity).
  assert (MatchString RetestRequiredRe retest_then_required = true) as H4
    by (vm_compute; reflexivity).
  assert ((retest_call (resolver ∅ ∅) retest_then_required start).2 = None) as H5
    by reflexivity.
  split; [exact Hc|]. split; [exact H1|]. split; [exact H2|].
  split.
  { exact (proj1 (proj1 (PresubmitFilter_resolver_calls (config := jobs) false
                           (resolver ∅ ∅) "/test all" start Hc) H1 H2)). }
  split; [exact H3|]. split; [exact H4|]. split; [exact H5|].
  exact (proj1 (proj2 (proj2 (proj2
           (PresubmitFilter_resolver_calls (config := jobs) false (resolver ∅ ∅)
              retest_then_required start Hc)))) H3 H4 H5).
Defined.

(** ** Scenarios of the specification *)

(** Scenario A: on "/retest", with the context of [unit] failed and those
    of [unit] and [lint] known, only [unit] is triggered. *)
Example scenario_retest :
  let getter := resolver {[ "ci/unit" ]} {[ "ci/unit"; "ci/lint" ]} in
  exists filter w,
    PresubmitFilter false getter "/retest" start = ((Some filter, None), w)
    /\ (FilterPresubmits filter no_changes "main" [unit_; lint; e2e] w).1
       = ([unit_], None).
Proof. eexists _, _. split; [reflexivity|]. vm_compute. reflexivity. Qed.

(** Scenario B: on "/test all", a job that needs an explicit trigger is
    left out, eligible or not. *)
Example scenario_test_all :
  exists filter w,
    PresubmitFilter false (resolver ∅ ∅) "/test all" start = ((Some filter, None), w)
    /\ resolved w = 0
    /\ (FilterPresubmits filter no_changes "main" [unit_; e2e; lint] w).1
       = ([unit_; lint], None).
Proof.
  eexists _, _. split; [reflexivity|]. split; [reflexivity|].
  vm_compute. reflexivity.
Qed.

(** The patterns on some bodies. *)
Example patterns :
  MatchString RetestRe "/retest" = true
  /\ MatchString RetestRe "/retest  " = true
  /\ MatchString RetestRe "/retest-required" = false
  /\ MatchString RetestRe " /retest" = false
  /\ MatchString RetestRe "/retest now" = false
  /\ MatchString RetestRe ("LGTM" +:+ nl +:+ "/retest" +:+ nl +:+ "thanks") = true
  /\ MatchString RetestRequiredRe "/retest-required" = true
  /\ MatchString RetestRequiredRe "/retest" = false
  /\ MatchString OkToTestRe "/ok-to-test" = true
  /\ MatchString OkToTestRe "/ok-to-test please" = false
  /\ MatchString TestAllRe "/test all" = true
  /\ MatchString TestAllRe "/test all," = true
  /\ MatchString TestAllRe "/test all, please" = true
  /\ MatchString TestAllRe "/test all please" = true
  /\ MatchString TestAllRe "/test allx" = false
  /\ MatchString TestAllRe "/test all,x" = false
  /\ MatchString TestAllRe "please /test all" = false.
Proof. vm_compute. by repeat split. Qed.

(** ** The further properties on the sample configuration *)

Lemma patterns_exclusive_witness :
  single_line "/retest-required" = true
  /\ RetestRequiredRe <> RetestRe
  /\ MatchString RetestRequiredRe "/retest-required" = true
  /\ MatchString RetestRe "/retest-required" = false.
Proof.
  assert (RetestRequiredRe <> RetestRe) as Hne by discriminate.
  assert (MatchString RetestRequiredRe "/retest-required" = true) as Hm
    by (vm_compute; reflexivity).
  split; [reflexivity|]. split; [exact Hne|]. split; [exact Hm|].
  refine (patterns_exclusive "/retest-required" RetestRequiredRe RetestRe
            eq_refl _ _ Hne Hm).
  - apply list_elem_of_further, list_elem_of_here.
  - apply list_elem_of_here.
Defined.

Lemma AggregateFilter_nested_witness :
  matches (AggregateFilter [CommandFilter "/test unit"] lint) = false
  /\ AggregateFilter [CommandFilter "/test unit"] lint = (false, false, false)
  /\ CommandFilter "/test unit" lint = (false, false, true).
Proof.
  assert (matches (AggregateFilter [CommandFilter "/test unit"] lint) = false)
    as Hm by (vm_compute; reflexivity).
  split; [exact Hm|]. split; [|vm_compute; reflexivity].
  exact (proj2 (proj2 (proj2
    (AggregateFilter_nested (config := jobs) [CommandFilter "/test unit"] [] lint)))
    Hm).
Defined.

Lemma FilterPresubmits_agree_witness :
  (forall p : Job, p ∈ three_jobs ->
     matches (CommandFilter "/test unit" p) = matches (unit_twice p) /\
     (matches (CommandFilter "/test unit" p) = true ->
      CommandFilter "/test unit" p = unit_twice p))
  /\ FilterPresubmits (CommandFilter "/test unit") no_changes "main" three_jobs start
     = FilterPresubmits unit_twice no_changes "main" three_jobs start.
Proof.
  assert (forall p : Job, p ∈ three_jobs ->
     matches (CommandFilter "/test unit" p) = matches (unit_twice p) /\
     (matches (CommandFilter "/test unit" p) = true ->
      CommandFilter "/test unit" p = unit_twice p)) as Hagree.
  { intros p Hp.
    apply elem_of_cons in Hp as [->|Hp]; [by vm_compute|].
    apply elem_of_cons in Hp as [->|Hp]; [by vm_compute|].
    apply list_elem_of_singleton in Hp as ->. by vm_compute. }
  split; [exact Hagree|].
  exact (proj1 (FilterPresubmits_agree (config := jobs) (CommandFilter "/test unit")
                  unit_twice no_changes "main" three_jobs start) Hagree).
Defined.

Lemma RetestRequiredFilter_restricts_witness :
  let failed : gset string := {[ "ci/unit"; "ci/flaky" ]} in
  let all : gset string := {[ "ci/unit"; "ci/flaky"; "ci/lint" ]} in
  (FilterPresubmits (RetestFilter failed all) no_changes "main" four_jobs start).1
  = ([unit_; flaky], None)
  /\ (FilterPresubmits (RetestRequiredFilter failed all) no_changes "main"
        four_jobs start).1
     = (List.filter (fun p : Job => negb (Optional p)) [unit_; flaky], None).
Proof.
  intros failed all.
  assert (FilterPresubmits (RetestFilter failed all) no_changes "main" four_jobs start
          = (([unit_; flaky], None),
             (FilterPresubmits (RetestFilter failed all) no_changes "main"
                four_jobs start).2)) as Hrun by (vm_compute; reflexivity).
  split; [by rewrite Hrun|].
  exact (RetestRequiredFilter_restricts (config := jobs) failed all no_changes "main"
           four_jobs start _ _ Hrun).
Defined.

Lemma retest_required_shadowed_witness :
  let failed : gset string := {[ "ci/unit" ]} in
  let all : gset string := {[ "ci/unit"; "ci/lint" ]} in
  answers (resolver failed all) failed all
  /\ MatchString RetestRe retest_then_required = true
  /\ exists filter : Filter,
       (PresubmitFilter false (resolver failed all) retest_then_required start).1
       = (Some filter, None)
       /\ forall p : Job,
            filter p =
            AggregateFilter [CommandFilter retest_then_required;
                             RetestFilter failed all] p.
Proof.
  intros failed all.
  assert (answers (resolver failed all) failed all) as Hg by (intros w; reflexivity).
  assert (MatchString RetestRe retest_then_required = true) as Hre
    by (vm_compute; reflexivity).
  split; [exact Hg|]. split; [exact Hre|].
  exact (retest_required_shadowed (config := jobs) false (resolver failed all)
           retest_then_required start failed all Hg Hre).
Defined.

Lemma retest_skips_passed_witness :
  let failed : gset string := {[ "ci/unit" ]} in
  let all : gset string := {[ "ci/unit"; "ci/lint" ]} in
  answers (resolver failed all) failed all
  /\ selects_test_all false "/retest" = false
  /\ TriggerMatches lint "/retest" = false
  /\ (Context lint ∈ all) /\ (Context lint ∉ failed)
  /\ exists filter : Filter,
       (PresubmitFilter false (resolver failed all) "/retest" start).1
       = (Some filter, None)
       /\ filter lint = (false, false, false).
Proof.
  intros failed all.
  assert (answers (resolver failed all) failed all) as Hg by (intros w; reflexivity).
  assert (selects_test_all false "/retest" = false) as Hta
    by (vm_compute; reflexivity).
  assert (TriggerMatches lint "/retest" = false) as Htm by (vm_compute; reflexivity).
  assert (Context lint ∈ all) as Hall by (simpl; set_solver).
  assert (Context lint ∉ failed) as Hfailed by (simpl; set_solver).
  split; [exact Hg|]. split; [exact Hta|]. split; [exact Htm|].
  split; [exact Hall|]. split; [exact Hfailed|].
  exact (retest_skips_passed (config := jobs) false (resolver failed all) "/retest"
           start failed all lint Hg Hta Htm Hall Hfailed).
Defined.

Lemma AvailablePresubmits_error_witness :
  let e := wrapError "lint: should run: no such branch" (errorString "no such branch") in
  (AvailablePresubmits no_changes "org" "repo" "main" two_broken start).1.2 = Some e
  /\ (AvailablePresubmits no_changes "org" "repo" "main" two_broken start).1
     = (∅, ∅, ∅, Some e).
Proof.
  intros e.
  assert ((AvailablePresubmits no_changes "org" "repo" "main" two_broken start).1.2
          = Some e) as Herr by (vm_compute; reflexivity).
  split; [exact Herr|].
  exact (proj1 (AvailablePresubmits_error (config := jobs) no_changes "org" "repo"
                  "main" two_broken start e Herr)).
Defined.

Lemma AvailablePresubmits_sets_witness :
  exists (names optional required : gset string) (w' : World),
    AvailablePresubmits no_changes "org" "repo" "main" flaky_and_core start
    = ((names, optional, required, None), w')
    /\ "flaky" ∈ names /\ "/test flaky" ∈ optional /\ "/test core" ∈ required.
Proof.
  destruct (AvailablePresubmits (config := jobs) no_changes "org" "repo" "main"
              flaky_and_core start) as [[[[names optional] required] err] w'] eqn:Hrun.
  assert (err = None) as ->.
  { change err with (names, optional, required, err, w').1.2. rewrite <- Hrun.
    vm_compute. reflexivity. }
  exists names, optional, required, w'. split; [reflexivity|].
  destruct (AvailablePresubmits_sets (config := jobs) no_changes "org" "repo" "main"
              flaky_and_core start names optional required w' Hrun)
    as [Hnames Hcommands].
  assert (flaky ∈ flaky_and_core) as Hf by apply list_elem_of_here.
  assert (core ∈ flaky_and_core) as Hc
    by apply list_elem_of_further, list_elem_of_here.
  split; [|split].
  - apply Hnames. exists flaky. by repeat split.
  - apply (Hcommands "/test flaky" true). exists flaky.
    repeat split; try done. by exists flaky.
  - apply (Hcommands "/test core" false). exists core.
    repeat split; try done. by exists core.
Defined.

Lemma ok_to_test_honoured_witness :
  single_line "/ok-to-test" = true
  /\ MatchString OkToTestRe "/ok-to-test" = true
  /\ (PresubmitFilter true (resolver ∅ ∅) "/ok-to-test" start).1 =
     (Some (AggregateFilter [CommandFilter "/ok-to-test"; TestAllFilter]), None)
  /\ (PresubmitFilter false (resolver ∅ ∅) "/ok-to-test" start).1 =
     (Some (AggregateFilter [CommandFilter "/ok-to-test"]), None).
Proof.
  assert (MatchString OkToTestRe "/ok-to-test" = true) as Hok
    by (vm_compute; reflexivity).
  split; [reflexivity|]. split; [exact Hok|]. split.
  - exact (ok_to_test_honoured (config := jobs) true (resolver ∅ ∅) "/ok-to-test"
             start eq_refl Hok).
  - exact (ok_to_test_honoured (config := jobs) false (resolver ∅ ∅) "/ok-to-test"
             start eq_refl Hok).
Defined.

(** ** The evaluator on the sample memory *)

Lemma FilterPresubmits_deterministic_witness :
  (forall p : Job, store.fixed (logging TestAllFilter p) (TestAllFilter p))
  /\ (forall p : Job, store.keeps slice (logging TestAllFilter p))
  /\ (forall (p : Job) (forced defaults : bool),
        store.fixed (rule p "main" no_changes forced defaults)
          (ShouldRun p "main" no_changes forced defaults))
  /\ (forall (p : Job) (forced defaults : bool),
        store.keeps slice (rule p "main" no_changes forced defaults))
  /\ store.contents memory slice = three_jobs
  /\ (let run := store.FilterPresubmits (logging TestAllFilter) rule no_changes
                   "main" slice in
      store.contents (run memory).2 slice = store.contents memory slice
      /\ (run memory).1 = ([unit_; lint], None)
      /\ (run (run memory).2).1 = (run memory).1).
Proof.
  assert (forall p : Job, store.fixed (logging TestAllFilter p) (TestAllFilter p))
    as H1 by (intros p m; reflexivity).
  assert (forall p : Job, store.keeps slice (logging TestAllFilter p))
    as H2 by (intros p m i _; reflexivity).
  assert (forall (p : Job) (forced defaults : bool),
            store.fixed (rule p "main" no_changes forced defaults)
              (ShouldRun p "main" no_changes forced defaults))
    as H3 by (intros p forced defaults m; reflexivity).
  assert (forall (p : Job) (forced defaults : bool),
            store.keeps slice (rule p "main" no_changes forced defaults))
    as H4 by (intros p forced defaults m i _; reflexivity).
  split; [exact H1|]. split; [exact H2|]. split; [exact H3|]. split; [exact H4|].
  split; [reflexivity|].
  destruct (FilterPresubmits_deterministic (config := jobs) (logging TestAllFilter)
              rule TestAllFilter no_changes "main" slice H1 H2 H3 H4 memory)
    as (Hkept & Hresult & Hagain & _).
  cbv zeta. split; [exact Hkept|]. split; [|exact Hagain].
  rewrite Hresult. vm_compute. reflexivity.
Defined.

(** The filter of the witness writes to the log at each presubmit: four
    entries are logged by the run, three of them by the filter. *)
Example logging_filter_logs :
  length (logged (store.world
    (store.FilterPresubmits (logging TestAllFilter) rule no_changes "main"
       slice memory).2)) = 4.
Proof. vm_compute. reflexivity. Qed.

(** A filter that writes a presubmit of the slice changes what the slice
    holds, and what is returned: the memory of the model is one that can
    be written. *)
Example overwriting_filter_writes :
  let run := store.FilterPresubmits (overwriting TestAllFilter) rule no_changes
               "main" slice in
  store.contents (run memory).2 slice = [unit_; e2e; flaky]
  /\ (run memory).1 = ([unit_; flaky], None)
  /\ ~ store.keeps slice (overwriting TestAllFilter unit_).
Proof.
  cbv zeta. split; [reflexivity|]. split; [vm_compute; reflexivity|].
  intros Hkeeps. specialize (Hkeeps memory 2 ltac:(simpl; lia)).
  discriminate Hkeeps.
Qed.

(** The two jobs of [per_branch] share their rerun command, and one is
    optional and the other is not. *)
Example per_branch_shares_command :
  forall p q : Job, per_branch = [p; q] ->
    RerunCommand p = RerunCommand q /\ Optional p <> Optional q.
Proof. intros p q [= <- <-]. split; [reflexivity|discriminate]. Qed.

